(** * mm-weather: a Mattermost slash command backed by weatherapi.com

    A shallow embedding of [weather.go] (package [main]) and the properties
    of its request path and of its start-up configuration.

    Layout of the development:
    - Go strings are byte strings: [string], one [ascii] per byte.
    - [strconv], [fmt], [url], [json], [jsonparser], [http], [log] and
      [viper] model the library calls made by [weather.go], each as far
      as the program uses it.
    - A JSON text is kept as the value it spells ([json.text]); a string
      literal in it carries what each of its two readers, encoding/json
      and jsonparser, makes of it.
    - [World] is the state the program threads: the package-level variables,
      viper's settings, the log and the requests sent to the provider.
    - [LogMessage] ... [main] follow [weather.go] function by function. *)

From Stdlib Require Import ZArith String Ascii List Bool Lia.
From Stdlib Require Import DecimalString.
From Stdlib Require Import Floats.SpecFloat.
From stdpp Require Import base option gmap strings list sorting.

Set Warnings "-register-all".

Open Scope string_scope.
Open Scope Z_scope.

(** ** Bytes *)

(** The byte with code [n]. *)
Definition byte (n : N) : ascii := ascii_of_N n.

(** A one-byte string. *)
Definition chr (n : N) : string := String (byte n) "".

(** The double quote, line feed and the UTF-8 encodings the program's
    literals contain. *)
Definition dq : string := chr 34.
Definition nl : string := chr 10.

Fixpoint bytes (l : list N) : string :=
  match l with
  | [] => ""
  | n :: r => String (byte n) (bytes r)
  end.

(** ** strconv: decimal text of integers and of float64 values *)

Module strconv.

(** [strconv.Itoa] on a natural number. *)
Definition Itoa (n : N) : string :=
  NilZero.string_of_uint (N.to_uint n).

(** A [float64] is an IEEE 754 binary64 datum. *)
Definition float64 : Set := spec_float.

Definition prec : Z := 53.
Definition emax : Z := 1024.

(** The float64 zero value. *)
Definition zero : float64 := S754_zero false.

(** The binary64 nearest to [d * 10^k], ties to even: what
    [strconv.ParseFloat] returns for the decimal [d]e[k]. *)
Definition of_decimal (d : positive) (k : Z) : float64 :=
  if 0 <=? k
  then binary_normalize prec emax (Zpos d * 10 ^ k) 0 false
  else SFdiv prec emax (S754_finite false d 0)
                       (S754_finite false (Z.to_pos (10 ^ (- k))) 0).

(** [m * 2^e] as a fraction. *)
Definition ratio (m : positive) (e : Z) : Z * Z :=
  if 0 <=? e then (Zpos m * 2 ^ e, 1) else (Zpos m, 2 ^ (- e)).

(** The least [k] from the given one with [den <= num * 10^(k - k0)]. *)
Fixpoint scale_up (fuel : nat) (num den k : Z) : Z :=
  match fuel with
  | O => k
  | S fuel' =>
      if den <=? num then k else scale_up fuel' (num * 10) den (k + 1)
  end.

(** The position [dp] of the decimal point: [10^(dp-1) <= num/den < 10^dp]. *)
Definition decimal_point (num den : Z) : Z :=
  if den <=? num
  then Z.of_nat (String.length (Itoa (Z.to_N (num / den))))
  else 1 - scale_up 400 (num * 10) den 1.

(** [num/den * 10^s] as a fraction. *)
Definition scaled (num den s : Z) : Z * Z :=
  if 0 <=? s then (num * 10 ^ s, den) else (num, den * 10 ^ (- s)).

(** The digits of a decimal: [digits] read as an integer, times
    [10^(dp - length digits)]. *)
Record decimal := Decimal { digits : string; dp : Z }.

Fixpoint strip_zeros_rev (s : list ascii) : list ascii :=
  match s with
  | a :: r => if Ascii.eqb a "0" then strip_zeros_rev r else s
  | [] => []
  end.

Definition strip_trailing_zeros (s : string) : string :=
  string_of_list_ascii (rev (strip_zeros_rev (rev (list_ascii_of_string s)))).

Definition mk_decimal (c : Z) (n dp0 : Z) : decimal :=
  let text := Itoa (Z.to_N c) in
  Decimal (strip_trailing_zeros text)
          (dp0 + (Z.of_nat (String.length text) - n)).

Definition rounds_to (f : float64) (c k : Z) : bool :=
  SFeqb (of_decimal (Z.to_pos c) k) f.

(** The shortest decimal that [of_decimal] reads back as [m * 2^e]:
    [n] significant digits are tried for [n] from [n0] on; of the two
    [n]-digit neighbours the one that reads back is taken, the nearer one
    (ties to the even digit) when both do. *)
Fixpoint shortest_from (fuel : nat) (n : Z) (m : positive) (e : Z) : decimal :=
  let '(num, den) := ratio m e in
  let dp0 := decimal_point num den in
  let '(N, D) := scaled num den (n - dp0) in
  let lo := N / D in
  let r := N mod D in
  let hi := lo + 1 in
  let nearest :=
    match 2 * r ?= D with
    | Lt => lo
    | Gt => hi
    | Eq => if Z.even lo then lo else hi
    end in
  let f := S754_finite false m e in
  match fuel with
  | O => mk_decimal nearest n dp0
  | S fuel' =>
      let ok_lo := rounds_to f lo (dp0 - n) in
      let ok_hi := rounds_to f hi (dp0 - n) in
      if ok_lo && ok_hi then mk_decimal nearest n dp0
      else if ok_lo then mk_decimal lo n dp0
      else if ok_hi then mk_decimal hi n dp0
      else shortest_from fuel' (n + 1) m e
  end.

Definition shortest (m : positive) (e : Z) : decimal :=
  shortest_from 16 1 m e.

Fixpoint zeros (n : nat) : string :=
  match n with
  | O => ""
  | S n' => String "0" (zeros n')
  end.

Definition take (n : nat) (s : string) : string := String.substring 0 n s.
Definition drop (n : nat) (s : string) : string :=
  String.substring n (String.length s - n) s.

(** [%e] with all the digits of [d]: [d.ddde+XX]; [pad] writes an exponent
    below ten with two digits. *)
Definition fmtE (pad : bool) (d : decimal) : string :=
  let nd := String.length (digits d) in
  let first := if Nat.eqb nd 0 then "0" else take 1 (digits d) in
  let rest := drop 1 (digits d) in
  let exp := if Nat.eqb nd 0 then 0 else dp d - 1 in
  let etext := Itoa (Z.to_N (Z.abs exp)) in
  first +:+ (if rest =? "" then "" else "." +:+ rest)%string
        +:+ "e" +:+ (if exp <? 0 then "-" else "+")
        +:+ (if pad && (Z.abs exp <? 10) then "0" else "") +:+ etext.

(** [%f] with all the digits of [d]. *)
Definition fmtF (d : decimal) : string :=
  let nd := Z.of_nat (String.length (digits d)) in
  let int_part :=
    if 0 <? dp d
    then take (Z.to_nat (dp d)) (digits d) +:+ zeros (Z.to_nat (dp d - nd))
    else "0" in
  let frac :=
    if dp d <? nd
    then "." +:+ zeros (Z.to_nat (- dp d)) +:+ drop (Z.to_nat (dp d)) (digits d)
    else "" in
  int_part +:+ frac.

(** [strconv.FormatFloat(f, 'g', -1, 64)]: the shortest digits, in [%e]
    form when the decimal exponent is below -4 or at least 6 (1e+06), in
    [%f] form otherwise. *)
Definition FormatFloat_g (f : float64) : string :=
  match f with
  | S754_nan => "NaN"
  | S754_infinity s => if s then "-Inf" else "+Inf"
  | S754_zero s => if s then "-0" else "0"
  | S754_finite s m e =>
      let d := shortest m e in
      let exp := dp d - 1 in
      (if s then "-" else "") +:+
      (if (exp <? -4) || (6 <=? exp) then fmtE true d else fmtF d)
  end.

End strconv.

(** ** fmt: the verbs of [fmt.Sprintf] that the program uses *)

Module fmt.

(** An operand of [Sprintf]: the program passes strings and one float64. *)
Inductive operand :=
| Str (s : string)
| Float64 (f : strconv.float64).

Definition type_name (a : operand) : string :=
  match a with
  | Str _ => "string"
  | Float64 _ => "float64"
  end.

(** The operand under [%v]. *)
Definition default_format (a : operand) : string :=
  match a with
  | Str s => s
  | Float64 f => strconv.FormatFloat_g f
  end.

(** [%!c(type=value)]: a verb the operand's type does not have. *)
Definition bad_verb (c : ascii) (a : operand) : string :=
  "%!" +:+ String c "(" +:+ type_name a +:+ "=" +:+ default_format a +:+ ")".

Definition format_verb (c : ascii) (a : operand) : string :=
  match a with
  | Str s =>
      if Ascii.eqb c "s" || Ascii.eqb c "v" then s else bad_verb c a
  | Float64 f =>
      if Ascii.eqb c "v" || Ascii.eqb c "g" then strconv.FormatFloat_g f
      else bad_verb c a
  end.

(** Operands left over when the format is used up. *)
Fixpoint extra_list (args : list operand) : string :=
  match args with
  | [] => ""
  | [a] => type_name a +:+ "=" +:+ default_format a
  | a :: r => type_name a +:+ "=" +:+ default_format a +:+ ", " +:+ extra_list r
  end.

Definition extra (args : list operand) : string :=
  match args with
  | [] => ""
  | _ => "%!(EXTRA " +:+ extra_list args +:+ ")"
  end.

(** [fmt.Sprintf] for formats without flags, width or precision: text is
    copied, [%%] is a percent sign, and a verb consumes the next operand.
    Operands are never read as formats. *)
Fixpoint Sprintf (format : string) (args : list operand) {struct format} : string :=
  match format with
  | EmptyString => extra args
  | String c rest =>
      if Ascii.eqb c "%" then
        match rest with
        | EmptyString => "%!(NOVERB)"
        | String v rest' =>
            if Ascii.eqb v "%" then String v (Sprintf rest' args)
            else
              match args with
              | a :: args' => format_verb v a +:+ Sprintf rest' args'
              | [] => "%!" +:+ String v "(MISSING)" +:+ Sprintf rest' []
              end
        end
      else String c (Sprintf rest args)
  end.

End fmt.

(** ** net/url: query escaping and query values *)

Module url.

Definition in_range (lo hi : N) (c : ascii) : bool :=
  (lo <=? N_of_ascii c)%N && (N_of_ascii c <=? hi)%N.

Definition is_alnum (c : ascii) : bool :=
  in_range 97 122 c || in_range 65 90 c || in_range 48 57 c.

(** [shouldEscape(c, encodeQueryComponent)]: everything but letters, digits
    and [-], [_], [.], [~] is escaped. *)
Definition shouldEscape (c : ascii) : bool :=
  negb (is_alnum c || Ascii.eqb c "-" || Ascii.eqb c "_"
        || Ascii.eqb c "." || Ascii.eqb c "~").

Definition upperhex (n : N) : ascii :=
  if (n <? 10)%N then ascii_of_N (48 + n) else ascii_of_N (55 + n).

(** One byte of [url.QueryEscape]'s output. *)
Definition escape_byte (c : ascii) : string :=
  if Ascii.eqb c " " then "+"
  else if shouldEscape c then
    String "%" (String (upperhex (N_of_ascii c / 16))
               (String (upperhex (N_of_ascii c mod 16)) ""))
  else String c "".

Fixpoint QueryEscape (s : string) : string :=
  match s with
  | EmptyString => ""
  | String c r => escape_byte c +:+ QueryEscape r
  end.

Definition unhex (c : ascii) : option N :=
  if in_range 48 57 c then Some (N_of_ascii c - 48)%N
  else if in_range 97 102 c then Some (N_of_ascii c - 87)%N
  else if in_range 65 70 c then Some (N_of_ascii c - 55)%N
  else None.

(** [url.QueryUnescape]: [+] is a space, [%XX] a byte; a [%] without two
    hexadecimal digits is an error. *)
Fixpoint QueryUnescape (s : string) : option string :=
  match s with
  | EmptyString => Some ""
  | String c r =>
      if Ascii.eqb c "%" then
        match r with
        | String h (String l r') =>
            match unhex h, unhex l, QueryUnescape r' with
            | Some a, Some b, Some t => Some (String (ascii_of_N (16 * a + b)) t)
            | _, _, _ => None
            end
        | _ => None
        end
      else
        match QueryUnescape r with
        | Some t => Some (String (if Ascii.eqb c "+" then " "%char else c) t)
        | None => None
        end
  end.

(** [url.Values]: the parsed query, a map from a key to its values. *)
Abbreviation Values := (gmap string (list string)).

(** [Values.Get]: the first value of the key, the empty string without one. *)
Definition Get (v : Values) (key : string) : string :=
  match v !! key with
  | Some (x :: _) => x
  | _ => ""
  end.

End url.

(** ** Errors

    A Go [error] as far as the program looks at it: its text. *)

Inductive error :=
| NetError (text : string)
  (** what [http.Get] or [io.ReadAll] reports; the text is the network
      stack's *)
| SyntaxError (text : string)
  (** [*json.SyntaxError] *)
| UnmarshalTypeError (Value : string) (Type_ : string)
  (** [*json.UnmarshalTypeError] *)
| UnsupportedValueError (Str : string)
  (** [*json.UnsupportedValueError] *)
| ConfigError (text : string)
  (** what [viper.ReadInConfig] reports *)
| WrapError (prefix : string) (inner : error)
  (** [fmt.Errorf(prefix + "%w", inner)] *).

Fixpoint Error (e : error) : string :=
  match e with
  | NetError t => t
  | SyntaxError t => t
  | UnmarshalTypeError v t =>
      "json: cannot unmarshal " +:+ v +:+ " into Go value of type " +:+ t
  | UnsupportedValueError s => "json: unsupported value: " +:+ s
  | ConfigError t => t
  | WrapError p i => p +:+ Error i
  end.

(** ** encoding/json *)

Module json.

(** *** UTF-8 *)

Definition is_cont (c : ascii) : bool := url.in_range 128 191 c.

(** [utf8.DecodeRuneInString]: the length of the encoding at the head of
    [s], [O] when the bytes there are not valid UTF-8. *)
Definition rune_size (s : string) : nat :=
  match s with
  | EmptyString => O
  | String b0 r0 =>
      let n0 := N_of_ascii b0 in
      let second (lo hi : N) (size : nat) : nat :=
        match r0 with
        | String b1 r1 =>
            if url.in_range lo hi b1 then
              match size, r1 with
              | 2%nat, _ => 2%nat
              | 3%nat, String b2 _ => if is_cont b2 then 3%nat else O
              | 4%nat, String b2 (String b3 _) =>
                  if is_cont b2 && is_cont b3 then 4%nat else O
              | _, _ => O
              end
            else O
        | EmptyString => O
        end in
      if (n0 <? 128)%N then 1%nat
      else if (n0 <? 194)%N then O
      else if (n0 <? 224)%N then second 128%N 191%N 2%nat
      else if (n0 =? 224)%N then second 160%N 191%N 3%nat
      else if (n0 =? 237)%N then second 128%N 159%N 3%nat
      else if (n0 <? 240)%N then second 128%N 191%N 3%nat
      else if (n0 =? 240)%N then second 144%N 191%N 4%nat
      else if (n0 <? 244)%N then second 128%N 191%N 4%nat
      else if (n0 =? 244)%N then second 128%N 143%N 4%nat
      else O
  end.

(** U+FFFD, the replacement character, in UTF-8. *)
Definition replacement : string := bytes [239; 191; 189]%N.

(** A byte string coerced to UTF-8: every encoded rune is kept and every
    byte that starts none becomes U+FFFD.  [fuel] bounds the bytes
    read. *)
Fixpoint coerce (fuel : nat) (s : string) : string :=
  match fuel, s with
  | O, _ => ""
  | _, EmptyString => ""
  | S fuel', String _ r =>
      match rune_size s with
      | O => replacement +:+ coerce fuel' r
      | size => strconv.take size s +:+ coerce fuel' (strconv.drop size s)
      end
  end.

Definition coerced (s : string) : string := coerce (String.length s) s.

(** *** Strings as the encoder writes them *)

Definition lowerhex (n : N) : ascii :=
  if (n <? 10)%N then ascii_of_N (48 + n) else ascii_of_N (87 + n).

(** One ASCII byte inside a JSON string, with HTML escaping on. *)
Definition escape_ascii (c : ascii) : string :=
  let n := N_of_ascii c in
  if (n =? 34)%N || (n =? 92)%N then String "\" (String c "")
  else if (n =? 8)%N then "\b"
  else if (n =? 12)%N then "\f"
  else if (n =? 10)%N then "\n"
  else if (n =? 13)%N then "\r"
  else if (n =? 9)%N then "\t"
  else if (n <? 32)%N || (n =? 60)%N || (n =? 62)%N || (n =? 38)%N
  then "\u00" +:+ String (lowerhex (n / 16)) (String (lowerhex (n mod 16)) "")
  else String c "".

(** The body of [appendString]: ASCII is escaped byte by byte, a byte that
    is not valid UTF-8 becomes [\ufffd], U+2028 and U+2029 are escaped, and
    every other encoded rune is copied.  [fuel] bounds the bytes read. *)
Fixpoint escape (fuel : nat) (s : string) : string :=
  match fuel, s with
  | O, _ => ""
  | _, EmptyString => ""
  | S fuel', String c r =>
      if (N_of_ascii c <? 128)%N then escape_ascii c +:+ escape fuel' r
      else
        match rune_size s with
        | O => "\ufffd" +:+ escape fuel' r
        | size =>
            let rune := strconv.take size s in
            let rest := strconv.drop size s in
            if String.eqb rune (bytes [226; 128; 168]%N) then "\u2028" +:+ escape fuel' rest
            else if String.eqb rune (bytes [226; 128; 169]%N) then "\u2029" +:+ escape fuel' rest
            else rune +:+ escape fuel' rest
        end
  end.

(** A Go string as a JSON string literal. *)
Definition quote (s : string) : string :=
  dq +:+ escape (String.length s) s +:+ dq.

(** *** Texts *)

(** A string literal of a JSON text: the bytes between its quotes, and
    what the two readers of the program make of them.
    - [unquoted] is the Go string that encoding/json's [unquote] returns:
      escapes resolved, every byte that is not valid UTF-8 and every
      [\u] escape of a surrogate without its partner replaced by U+FFFD.
    - [unescaped] is what jsonparser takes the literal for: the bytes as
      they are when no backslash is among them, the result of [Unescape]
      otherwise, [None] when [Unescape] reports an error (a [\u] escape
      of a surrogate without its partner).
    The two differ for instance for the byte FF (U+FFFD against the byte
    itself) and for [\ud800] (U+FFFD against an error). *)
Record literal := Literal {
  raw : string;
  unquoted : string;
  unescaped : option string
}.

(** A literal without a backslash: jsonparser takes it for its bytes, the
    decoder for its bytes coerced to UTF-8. *)
Definition plain (s : string) : literal :=
  {| raw := s; unquoted := coerced s; unescaped := Some s |}.

(** The literal the encoder writes for a Go string.  Read back, by either
    reader, it is the string coerced to UTF-8: each [\ufffd] written for
    a byte that is not valid UTF-8 reads as U+FFFD, and every other escape
    of [escape] reads as the byte or rune it was written for. *)
Definition written (s : string) : literal :=
  {| raw := escape (String.length s) s;
     unquoted := coerced s;
     unescaped := Some (coerced s) |}.

(** A JSON value as the text spells it: the members of an object in the
    order of the text, repeated names included.  A number carries its
    literal and what [strconv.ParseFloat] returns for the literal: the
    nearest float64, an infinity when the literal is out of the range of
    float64 (then [ParseFloat] reports [ErrRange] as well). *)
Inductive value :=
| JNull
| JBool (b : bool)
| JNumber (lit : string) (f : strconv.float64)
| JString (l : literal)
| JArray (items : list value)
| JObject (members : list (literal * value)).

(** A byte string read as JSON: the value it spells, or not JSON at all
    ([why] is the complaint of the decoder's scanner).  The empty string
    is no JSON.  The byte strings that the program hands to the decoder
    and to jsonparser, the body of the provider and the string that
    [callWeatherAPI] returns, are kept in this form; [string_of] below
    gives the bytes of a text that the encoder wrote. *)
Inductive text :=
| Malformed (why : string)
| Wellformed (v : value).

(** The empty byte string. *)
Definition empty : text := Malformed "unexpected end of JSON input".

(** [ParseFloat] reported no error. *)
Definition in_range (f : strconv.float64) : bool :=
  match f with
  | S754_zero _ | S754_finite _ _ _ => true
  | _ => false
  end.

(** The scanner gives up beyond this depth of arrays and objects. *)
Definition maxNestingDepth : N := 10000.

(** *** The decoder *)

(** What [Unmarshal] stores in an [interface{}]. *)
Inductive any :=
| GoNil
| GoBool (b : bool)
| GoFloat64 (f : strconv.float64)
| GoString (s : string)
| GoSlice (items : list any)
| GoMap (entries : list (string * any)).

(** [m[k] = x] on a Go map kept as a list of entries with distinct keys. *)
Fixpoint map_set {A} (k : string) (x : A) (m : list (string * A)) : list (string * A) :=
  match m with
  | [] => [(k, x)]
  | (k', y) :: r =>
      if String.eqb k' k then (k, x) :: r else (k', y) :: map_set k x r
  end.

Fixpoint map_get {A} (k : string) (m : list (string * A)) : option A :=
  match m with
  | [] => None
  | (k', y) :: r => if String.eqb k' k then Some y else map_get k r
  end.

(** The decoder's store into an [interface{}].  Every member of an object
    is assigned to the map in turn under its unquoted name, so a repeated
    name keeps its last value.  A number out of range stores nothing (the
    decoder saves the error and goes on). *)
Fixpoint decode (v : value) : any :=
  match v with
  | JNull => GoNil
  | JBool b => GoBool b
  | JNumber _ f => if in_range f then GoFloat64 f else GoNil
  | JString l => GoString (unquoted l)
  | JArray items => GoSlice (map decode items)
  | JObject members =>
      GoMap ((fix assign (ms : list (literal * value)) (m : list (string * any)) :=
                match ms with
                | [] => m
                | (k, x) :: r => assign r (map_set (unquoted k) (decode x) m)
                end) members [])
  end.

(** The first of a list of results that is an error. *)
Fixpoint first_error (l : list (option error)) : option error :=
  match l with
  | [] => None
  | Some e :: _ => Some e
  | None :: r => first_error r
  end.

(** The error the decoder saves while it stores a value: that of the
    first number, in the order of the text, whose literal is out of the
    range of float64. *)
Fixpoint range_error (v : value) : option error :=
  match v with
  | JNumber lit f =>
      if in_range f then None
      else Some (UnmarshalTypeError ("number " +:+ lit) "float64")
  | JArray items => first_error (map range_error items)
  | JObject members => first_error (map (fun m => range_error (snd m)) members)
  | _ => None
  end.

(** The bracket that opens the first array or object, in the order of
    the text, with more than [room] arrays and objects around it. *)
Fixpoint too_deep (room : N) (v : value) : option ascii :=
  match v with
  | JArray items =>
      if (room =? 0)%N then Some "["%char
      else
        (fix first (l : list (option ascii)) : option ascii :=
           match l with
           | [] => None
           | Some c :: _ => Some c
           | None :: r => first r
           end) (map (too_deep (N.pred room)) items)
  | JObject members =>
      if (room =? 0)%N then Some "{"%char
      else
        (fix first (l : list (option ascii)) : option ascii :=
           match l with
           | [] => None
           | Some c :: _ => Some c
           | None :: r => first r
           end) (map (fun m => too_deep (N.pred room) (snd m)) members)
  | _ => None
  end.

(** The error of the scanner for a text that nests deeper than
    [maxNestingDepth]: it names the bracket that goes too deep. *)
Definition depth_error (v : value) : option error :=
  match too_deep maxNestingDepth v with
  | Some c =>
      Some (SyntaxError ("invalid character '" +:+ String c "' exceeded max depth"))
  | None => None
  end.

(** The JSON kind named by an [UnmarshalTypeError]. *)
Definition kind (v : value) : string :=
  match v with
  | JNull => "null"
  | JBool _ => "bool"
  | JNumber _ _ => "number"
  | JString _ => "string"
  | JArray _ => "array"
  | JObject _ => "object"
  end.

(** [json.Unmarshal(body, &result)] for [var result map[string]interface{}]:
    the map ([None] is the nil map) and the error.  A text that is no JSON
    or nests deeper than [maxNestingDepth] is a [SyntaxError] and stores
    nothing.  The text [null] leaves the map nil and is no error; any
    other value that is not an object is an [UnmarshalTypeError]; an
    object is stored, and the error is that of the first number out of
    range, if there is one. *)
Definition Unmarshal (body : text) : option (list (string * any)) * option error :=
  match body with
  | Malformed why => (None, Some (SyntaxError why))
  | Wellformed v =>
      match depth_error v with
      | Some err => (None, Some err)
      | None =>
          match v with
          | JNull => (None, None)
          | JObject _ =>
              match decode v with
              | GoMap m => (Some m, range_error v)
              | _ => (None, None)
              end
          | _ => (None, Some (UnmarshalTypeError (kind v) "map[string]interface {}"))
          end
      end
  end.

(** *** The encoder *)

Definition key_le {A} (p q : string * A) : Prop :=
  Is_true (String.leb (fst p) (fst q)).

#[global] Instance key_le_dec {A} (p q : string * A) : Decision (key_le p q).
Proof. unfold key_le. apply _. Defined.

(** A float64 as the encoder writes it: [%f] form, [%e] form below 1e-6
    and from 1e21 on.  An infinity and NaN have no text: the encoder
    fails on them. *)
Definition float_text (f : strconv.float64) : option string :=
  match f with
  | S754_finite s m e =>
      let d := strconv.shortest m e in
      let exp := strconv.dp d - 1 in
      Some ((if s then "-" else "") +:+
            (if (exp <? -6) || (21 <=? exp) then strconv.fmtE false d else strconv.fmtF d))
  | S754_zero s => Some (if s then "-0" else "0")
  | _ => None
  end.

(** The values of a slice in turn, up to the first that fails. *)
Fixpoint items_of (l : list (value + error)) : list value + error :=
  match l with
  | [] => inl []
  | inr e :: _ => inr e
  | inl v :: r =>
      match items_of r with
      | inl vs => inl (v :: vs)
      | inr e => inr e
      end
  end.

(** The entries of a map in turn, up to the first that fails: each key is
    written as a string literal. *)
Fixpoint members_of (l : list (string * (value + error))) : list (literal * value) + error :=
  match l with
  | [] => inl []
  | (_, inr e) :: _ => inr e
  | (k, inl v) :: r =>
      match members_of r with
      | inl ms => inl ((written k, v) :: ms)
      | inr e => inr e
      end
  end.

(** The encoder, by the text it writes: a map is written with its keys
    sorted, a float64 that is no number is an [UnsupportedValueError].
    The number the encoder writes reads back as the float64 it was
    written for. *)
Fixpoint encode (a : any) : value + error :=
  match a with
  | GoNil => inl JNull
  | GoBool b => inl (JBool b)
  | GoFloat64 f =>
      match float_text f with
      | Some lit => inl (JNumber lit f)
      | None => inr (UnsupportedValueError (strconv.FormatFloat_g f))
      end
  | GoString s => inl (JString (written s))
  | GoSlice items =>
      match items_of (map encode items) with
      | inl vs => inl (JArray vs)
      | inr e => inr e
      end
  | GoMap entries =>
      match members_of
              (merge_sort key_le (map (fun e => (fst e, encode (snd e))) entries)) with
      | inl ms => inl (JObject ms)
      | inr e => inr e
      end
  end.

(** [json.Marshal(result)] for a [map[string]interface{}]: a nil map is
    written as [null]; when the encoder fails, nothing is returned but
    the error. *)
Definition Marshal_map (result : option (list (string * any))) : text * option error :=
  match result with
  | None => (Wellformed JNull, None)
  | Some m =>
      match encode (GoMap m) with
      | inl v => (Wellformed v, None)
      | inr err => (empty, Some err)
      end
  end.

(** *** The bytes of a text *)

Definition join (sep : string) (l : list string) : string :=
  match l with
  | [] => ""
  | x :: r => x +:+ String.concat "" (map (fun y => sep +:+ y) r)
  end.

Fixpoint render (v : value) : string :=
  match v with
  | JNull => "null"
  | JBool b => if b then "true" else "false"
  | JNumber lit _ => lit
  | JString l => dq +:+ raw l +:+ dq
  | JArray items => "[" +:+ join "," (map render items) +:+ "]"
  | JObject members =>
      "{" +:+ join ","
                (map (fun m => dq +:+ raw (fst m) +:+ dq +:+ ":" +:+ render (snd m)) members)
          +:+ "}"
  end.

(** The bytes of a text the encoder wrote; the empty string is the only
    other text the program holds. *)
Definition string_of (t : text) : string :=
  match t with
  | Malformed _ => ""
  | Wellformed v => render v
  end.

End json.

(** ** github.com/buger/jsonparser *)

Module jsonparser.

Inductive err :=
| KeyPathNotFoundError
| MalformedValueError
| NotAString
| NotANumber.

(** How a search ends: at a value, at the end of the text, or at a member
    name that [Unescape] cannot read, where the search is given up. *)
Inductive found :=
| Found (v : json.value)
| NotFound
| GaveUp.

(** [searchKeys]: the scan for a path of nested member names.  Members are
    visited in the order of the text, and every name visited is read as
    jsonparser reads a literal.  A member whose name is the next key is
    entered (when it is the last key, its value is the result); a search
    that finds nothing inside it resumes with the members after it.
    Arrays and members under other names are skipped. *)
Fixpoint searchKeys (keys : list string) (data : json.value) : found :=
  match keys with
  | [] => Found data
  | k :: ks =>
      match data with
      | json.JObject members =>
          (fix scan (ms : list (json.literal * json.value)) : found :=
             match ms with
             | [] => NotFound
             | (name, v) :: rest =>
                 match json.unescaped name with
                 | None => GaveUp
                 | Some n =>
                     if String.eqb n k then
                       match searchKeys ks v with
                       | NotFound => scan rest
                       | r => r
                       end
                     else scan rest
                 end
             end) members
      | _ => NotFound
      end
  end.

(** [Get]: the value at the path.  The handler passes what [json.Marshal]
    wrote, or the empty string, in which no key is found. *)
Definition Get (data : json.text) (keys : list string) : option json.value :=
  match data with
  | json.Malformed _ => None
  | json.Wellformed v =>
      match searchKeys keys v with
      | Found r => Some r
      | _ => None
      end
  end.

(** [GetString]: the zero value and an error unless the path leads to a
    string that jsonparser can read. *)
Definition GetString (data : json.text) (keys : list string) : string * option err :=
  match Get data keys with
  | None => ("", Some KeyPathNotFoundError)
  | Some (json.JString l) =>
      match json.unescaped l with
      | Some s => (s, None)
      | None => ("", Some MalformedValueError)
      end
  | Some _ => ("", Some NotAString)
  end.

(** [GetFloat]: the zero value and an error unless the path leads to a
    number in the range of float64. *)
Definition GetFloat (data : json.text) (keys : list string) : strconv.float64 * option err :=
  match Get data keys with
  | None => (strconv.zero, Some KeyPathNotFoundError)
  | Some (json.JNumber _ f) =>
      if json.in_range f then (f, None) else (strconv.zero, Some MalformedValueError)
  | Some _ => (strconv.zero, Some NotANumber)
  end.

End jsonparser.

(** ** net/http *)

Module http.

Definition StatusOK : Z := 200.
Definition StatusInternalServerError : Z := 500.

(** The inbound request as far as the handler reads it: [URL.Query()]. *)
Record Request := { Query : url.Values }.

(** An [http.ResponseWriter]: the header map, the status line once
    written, the bytes written, and the error its [Write] reports (a
    connection the client has left). *)
Record ResponseWriter := {
  Header : gmap string string;
  status : option Z;
  written : string;
  broken : option string
}.

(** A writer nothing has been sent on. *)
Definition fresh (broken : option string) : ResponseWriter :=
  {| Header := ∅; status := None; written := ""; broken := broken |}.

Definition Header_Set (w : ResponseWriter) (k v : string) : ResponseWriter :=
  {| Header := <[k := v]> (Header w); status := status w;
     written := written w; broken := broken w |}.

Definition Header_Del (w : ResponseWriter) (k : string) : ResponseWriter :=
  {| Header := delete k (Header w); status := status w;
     written := written w; broken := broken w |}.

(** [WriteHeader]: the first status sent stands. *)
Definition WriteHeader (w : ResponseWriter) (code : Z) : ResponseWriter :=
  match status w with
  | Some _ => w
  | None =>
      {| Header := Header w; status := Some code;
         written := written w; broken := broken w |}
  end.

(** [Write]: sends status 200 first when none was sent. *)
Definition Write (w : ResponseWriter) (data : string) : ResponseWriter * option string :=
  let w := WriteHeader w StatusOK in
  match broken w with
  | Some e => (w, Some e)
  | None =>
      ({| Header := Header w; status := status w;
          written := written w +:+ data; broken := None |}, None)
  end.

(** [http.Error]: a plain-text reply, the message on a line of its own. *)
Definition Error (w : ResponseWriter) (error : string) (code : Z) : ResponseWriter :=
  let w := Header_Del w "Content-Length" in
  let w := Header_Set w "Content-Type" "text/plain; charset=utf-8" in
  let w := Header_Set w "X-Content-Type-Options" "nosniff" in
  let w := WriteHeader w code in
  fst (Write w (error +:+ nl)).

End http.

(** ** The process and its surroundings *)

(** The provider's answer to one GET. *)
Inductive Reply :=
| Unreachable (err : error)
  (** [http.Get] returns [err] *)
| Unreadable (err : error)
  (** [io.ReadAll] on the body returns [err] *)
| Body (body : json.text)
  (** the body, read to its end *).

(** What the operating system and the network answer. *)
Record OS := {
  (** the environment variables *)
  environ : gmap string string;
  (** the settings viper reads from the file at a path, under lower-case
      keys, each as [GetString] returns it, or the error it reports when
      the file cannot be read or parsed *)
  config_files : string → gmap string string + error;
  (** the provider's answer to a GET on a URL *)
  fetch : string → Reply;
  (** the error [http.ListenAndServe] returns for an address it cannot
      bind; [None] when it binds and serves *)
  listen_error : string → option error
}.

(** [LogLevel] and its constants. *)
Definition LogLevel : Set := string.
Definition debugLevel : LogLevel := "DEBUG".
Definition infoLevel : LogLevel := "INFO".
Definition warningLevel : LogLevel := "WARNING".
Definition errorLevel : LogLevel := "ERROR".

Definition defaultPort : string := "8080".
Definition defaultConfigFile : string := "config.json".
Definition weatherAPIBase : string := "http://api.weatherapi.com/v1/current.json".
Definition weatherAPISuffix : string := "aqi=no".

Inductive Stream := Stdout | Stderr.

(** The state the program changes: its package-level variables, viper's
    global settings, the standard logger of package [log] (its output and
    its flags), what the logger wrote and the URLs requested, both oldest
    first.  An entry of [logged] is the stream written to and the text
    handed to the logger; the date and time that the logger writes before
    the text are not kept. *)
Record World := {
  debugMode : bool;
  weatherAPIKey : string;
  viper_file : string;
  viper_settings : gmap string string;
  log_output : Stream;
  log_flags : N;
  logged : list (Stream * string);
  requested : list string
}.

(** The process as it starts: [debugMode] is false, no key, nothing read;
    the standard logger writes to stderr with the flags [LstdFlags]. *)
Definition boot : World :=
  {| debugMode := false; weatherAPIKey := ""; viper_file := "";
     viper_settings := ∅; log_output := Stderr; log_flags := 3;
     logged := []; requested := [] |}.

Definition set_debugMode (b : bool) (w : World) : World :=
  {| debugMode := b; weatherAPIKey := weatherAPIKey w;
     viper_file := viper_file w; viper_settings := viper_settings w;
     log_output := log_output w; log_flags := log_flags w;
     logged := logged w; requested := requested w |}.

Definition set_weatherAPIKey (k : string) (w : World) : World :=
  {| debugMode := debugMode w; weatherAPIKey := k;
     viper_file := viper_file w; viper_settings := viper_settings w;
     log_output := log_output w; log_flags := log_flags w;
     logged := logged w; requested := requested w |}.

Definition set_viper_file (f : string) (w : World) : World :=
  {| debugMode := debugMode w; weatherAPIKey := weatherAPIKey w;
     viper_file := f; viper_settings := viper_settings w;
     log_output := log_output w; log_flags := log_flags w;
     logged := logged w; requested := requested w |}.

Definition set_viper_settings (m : gmap string string) (w : World) : World :=
  {| debugMode := debugMode w; weatherAPIKey := weatherAPIKey w;
     viper_file := viper_file w; viper_settings := m;
     log_output := log_output w; log_flags := log_flags w;
     logged := logged w; requested := requested w |}.

Definition set_log_output (s : Stream) (w : World) : World :=
  {| debugMode := debugMode w; weatherAPIKey := weatherAPIKey w;
     viper_file := viper_file w; viper_settings := viper_settings w;
     log_output := s; log_flags := log_flags w;
     logged := logged w; requested := requested w |}.

Definition set_log_flags (flags : N) (w : World) : World :=
  {| debugMode := debugMode w; weatherAPIKey := weatherAPIKey w;
     viper_file := viper_file w; viper_settings := viper_settings w;
     log_output := log_output w; log_flags := flags;
     logged := logged w; requested := requested w |}.

Definition append_logged (l : Stream * string) (w : World) : World :=
  {| debugMode := debugMode w; weatherAPIKey := weatherAPIKey w;
     viper_file := viper_file w; viper_settings := viper_settings w;
     log_output := log_output w; log_flags := log_flags w;
     logged := logged w ++ [l]; requested := requested w |}.

Definition add_requested (u : string) (w : World) : World :=
  {| debugMode := debugMode w; weatherAPIKey := weatherAPIKey w;
     viper_file := viper_file w; viper_settings := viper_settings w;
     log_output := log_output w; log_flags := log_flags w;
     logged := logged w; requested := requested w ++ [u] |}.

(** How a run of Go code ends: it returns, the process exits
    ([os.Exit]), it panics, or it stays in [http.ListenAndServe]. *)
Inductive Outcome (A : Type) :=
| Return (a : A)
| Exit (code : Z)
| Panic (e : error)
| Serving (addr : string).

Arguments Return {A} a.
Arguments Exit {A} code.
Arguments Panic {A} e.
Arguments Serving {A} addr.

(** Go code over the [World]. *)
Definition Go (A : Type) : Type := World → Outcome A * World.

#[global] Instance Go_ret : MRet Go := λ A a w, (Return a, w).

#[global] Instance Go_bind : MBind Go := λ A B f m w,
  match m w with
  | (Return a, w') => f a w'
  | (Exit c, w') => (Exit c, w')
  | (Panic e, w') => (Panic e, w')
  | (Serving a, w') => (Serving a, w')
  end.

Definition get : Go World := λ w, (Return w, w).
Definition modify (f : World → World) : Go unit := λ w, (Return tt, f w).
Definition os_Exit {A} (code : Z) : Go A := λ w, (Exit code, w).
Definition panic {A} (e : error) : Go A := λ w, (Panic e, w).

(** ** log: the standard logger *)

Module log.

Definition Ldate : N := 1.
Definition Ltime : N := 2.

Definition SetOutput (s : Stream) : Go unit := modify (set_log_output s).

Definition SetFlags (flags : N) : Go unit := modify (set_log_flags flags).

(** The text with a line feed at its end, added when it has none. *)
Fixpoint terminated (s : string) : string :=
  match s with
  | EmptyString => nl
  | String c EmptyString => if Ascii.eqb c (byte 10) then s else String c nl
  | String c r => String c (terminated r)
  end.

(** [log.Printf]: the formatted text, with a line feed at its end, is
    written to the output of the logger, after the date and time its
    flags ask for. *)
Definition Printf (format : string) (args : list fmt.operand) : Go unit :=
  w ← get;
  modify (append_logged (log_output w, terminated (fmt.Sprintf format args))).

End log.

(** ** viper *)

Module viper.

(** [strings.ToLower] on ASCII: viper's keys are case-insensitive. *)
Definition lower (c : ascii) : ascii :=
  if url.in_range 65 90 c then ascii_of_N (N_of_ascii c + 32) else c.

Fixpoint ToLower (s : string) : string :=
  match s with
  | EmptyString => ""
  | String c r => String (lower c) (ToLower r)
  end.

Definition SetConfigFile (path : string) : Go unit :=
  modify (set_viper_file path).

(** [ReadInConfig]: loads the settings of the configured file, or returns
    the error and loads nothing. *)
Definition ReadInConfig (os : OS) : Go (option error) :=
  w ← get;
  match config_files os (viper_file w) with
  | inl settings => modify (set_viper_settings settings);; mret None
  | inr err => mret (Some err)
  end.

(** [GetString]: the setting under the key, the empty string without one.
    Only a file that was read supplies settings: the program sets no
    defaults and binds no environment variables. *)
Definition GetString (key : string) : Go string :=
  w ← get;
  mret (default "" (viper_settings w !! ToLower key)).

End viper.

(** ** weather.go *)

(** [MattermostResponse]: the reply to the slash command. *)
Record MattermostResponse := {
  ResponseType : string;
  Text : string
}.

(** [json.Marshal] on a [MattermostResponse]: the two fields under their
    tags, in the order of the struct.  Strings always encode, so the error
    is nil. *)
Definition Marshal (r : MattermostResponse) : string * option error :=
  ("{" +:+ json.quote "response_type" +:+ ":" +:+ json.quote (ResponseType r)
       +:+ "," +:+ json.quote "text" +:+ ":" +:+ json.quote (Text r) +:+ "}",
   None).

(** [LogMessage]: a line on stderr for [errorLevel], on stdout otherwise,
    after the date and the time. *)
Definition LogMessage (level : LogLevel) (message : string) : Go unit :=
  (if decide (level = errorLevel)
   then log.SetOutput Stderr
   else log.SetOutput Stdout);;
  log.SetFlags (N.lor log.Ldate log.Ltime);;
  log.Printf ("[%s] %s" +:+ nl) [fmt.Str level; fmt.Str message].

(** [DebugPrint]: logs only in debug mode. *)
Definition DebugPrint (message : string) : Go unit :=
  w ← get;
  if debugMode w then LogMessage debugLevel message else mret tt.

(** [callWeatherAPI]: one GET to the provider; the body decoded into a map
    and encoded again.  The string returned is kept as the text it
    spells. *)
Definition callWeatherAPI (os : OS) (location : string) : Go (json.text * option error) :=
  DebugPrint ("Calling weather API for location: " +:+ location);;
  let safeLocation := url.QueryEscape location in
  w ← get;
  let fullURL :=
    fmt.Sprintf "%s?key=%s&q=%s&%s"
      [fmt.Str weatherAPIBase; fmt.Str (weatherAPIKey w);
       fmt.Str safeLocation; fmt.Str weatherAPISuffix] in
  modify (add_requested fullURL);;
  match fetch os fullURL with
  | Unreachable err =>
      LogMessage errorLevel "Call to Weather API failed";;
      mret (json.empty, Some err)
  | Unreadable err =>
      LogMessage errorLevel "Unable to extract body data from Weather API response";;
      mret (json.empty, Some err)
  | Body body =>
      match json.Unmarshal body with
      | (_, Some err) =>
          LogMessage errorLevel "Failed to convert body data";;
          mret (json.empty, Some err)
      | (result, None) =>
          match json.Marshal_map result with
          | (_, Some err) =>
              LogMessage errorLevel "Unable to convert weather data to string";;
              mret (json.empty, Some err)
          | (weatherData, None) =>
              DebugPrint ("Weather data: " +:+ json.string_of weatherData);;
              mret (weatherData, None)
          end
      end
  end.

(** The format of the reply, byte for byte as line 111 of [weather.go]
    holds it: between [%v] and [C] stand the four bytes C3 82 C2 B0, the
    UTF-8 encodings of U+00C2 and U+00B0. *)
Definition responseFormat : string :=
  "Current weather in %s: %v" +:+ bytes [195; 130; 194; 176]%N +:+ "C - %s".

(** [weatherHandler]: the slash command. *)
Definition weatherHandler (os : OS) (responseWriter : http.ResponseWriter)
    (inboundRequest : http.Request) : Go http.ResponseWriter :=
  LogMessage infoLevel "Received inbound request";;
  let location := url.Get (http.Query inboundRequest) "text" in
  DebugPrint ("Text: " +:+ location);;
  let location := if decide (location = "") then "auto:ip" else location in
  r ← callWeatherAPI os location;
  match r with
  | (_, Some err) =>
      mret (http.Error responseWriter (Error err) http.StatusInternalServerError)
  | (apiResponse, None) =>
      let currentLocation := fst (jsonparser.GetString apiResponse ["location"; "name"]) in
      let currentTemp := fst (jsonparser.GetFloat apiResponse ["current"; "temp_c"]) in
      let currentConditions :=
        fst (jsonparser.GetString apiResponse ["current"; "condition"; "text"]) in
      let responseMessage :=
        fmt.Sprintf responseFormat
          [fmt.Str currentLocation; fmt.Float64 currentTemp; fmt.Str currentConditions] in
      let responsePayload :=
        {| ResponseType := "in_channel"; Text := responseMessage |} in
      match Marshal responsePayload with
      | (_, Some err) =>
          mret (http.Error responseWriter (Error err) http.StatusInternalServerError)
      | (jsonResponse, None) =>
          let responseWriter :=
            http.Header_Set responseWriter "Content-Type" "application/json" in
          let responseWriter := http.WriteHeader responseWriter http.StatusOK in
          match http.Write responseWriter jsonResponse with
          | (responseWriter, Some writeErr) =>
              LogMessage errorLevel
                ("Error posting response to Mattermost: " +:+ writeErr);;
              mret responseWriter
          | (responseWriter, None) => mret responseWriter
          end
      end
  end.

(** The command line after [flag.Parse]. *)
Record Flags := {
  debugFlag : bool;
  configFile : string;
  apiToken : string;
  listenPort : string
}.

(** No flag given: the defaults of the four [flag] declarations. *)
Definition no_flags : Flags :=
  {| debugFlag := false; configFile := "config.json"; apiToken := ""; listenPort := "" |}.

(** [http.ListenAndServe]: returns the error of an address it cannot bind,
    and does not return otherwise. *)
Definition ListenAndServe (os : OS) (addr : string) : Go error :=
  match listen_error os addr with
  | Some err => mret err
  | None => λ w, (Serving addr, w)
  end.

(** [main]. *)
Definition main (os : OS) (flags : Flags) : Go unit :=
  modify (set_debugMode (debugFlag flags));;
  apiToken ←
    (if decide (apiToken flags = "") then
       match environ os !! "WEATHER_API_TOKEN" with
       | None =>
           viper.SetConfigFile (configFile flags);;
           err ← viper.ReadInConfig os;
           match err with
           | Some err =>
               panic (WrapError "fatal error processing config file: " err)
           | None =>
               apiToken ← viper.GetString "apiKey";
               DebugPrint "Obtained API key from config file";;
               mret apiToken
           end
       | Some apiToken =>
           DebugPrint "Obtained API key from environment";;
           mret apiToken
       end
     else
       DebugPrint "Obtained API key from command line";;
       mret (apiToken flags));
  if decide (apiToken = "") then
    LogMessage errorLevel "Failed to locate API key!";;
    os_Exit 2
  else
    modify (set_weatherAPIKey apiToken);;
    listenPort ←
      (if decide (listenPort flags = "") then
         match environ os !! "MM_LISTEN_PORT" with
         | None =>
             listenPort ← viper.GetString "listenPort";
             if decide (listenPort = "") then
               DebugPrint ("Using default listen port: " +:+ defaultPort);;
               mret defaultPort
             else
               DebugPrint ("Obtained listen port '" +:+ listenPort +:+ "' from config file");;
               mret listenPort
         | Some listenPort =>
             DebugPrint ("Obtained listen port '" +:+ listenPort +:+ "' from environment");;
             mret listenPort
         end
       else
         DebugPrint ("Obtained listen port '" +:+ listenPort flags +:+ "' from command line");;
         mret (listenPort flags));
    LogMessage infoLevel ("Starting server on port " +:+ listenPort);;
    let listenPortString := fmt.Sprintf ":%s" [fmt.Str listenPort] in
    DebugPrint ("Listen port string: " +:+ listenPortString);;
    err ← ListenAndServe os listenPortString;
    panic err.

(** ** The vocabulary of the statements

    Names for what the theorems below speak about: the URL of the outbound
    request, the lines logged, the pieces of the handler's reply, and the
    claims of the specification where the code departs from them. *)

(** The URL [callWeatherAPI] builds for a key and a location. *)
Definition request_url (key location : string) : string :=
  weatherAPIBase +:+ "?key=" +:+ key +:+ "&q=" +:+ url.QueryEscape location
                 +:+ "&" +:+ weatherAPISuffix.

(** The line [LogMessage] writes, and the stream it goes to. *)
Definition log_line (level : LogLevel) (message : string) : Stream * string :=
  (if decide (level = errorLevel) then Stderr else Stdout,
   "[" +:+ level +:+ "] " +:+ message +:+ nl).

(** The world after [LogMessage] wrote an entry: the logger is set to the
    stream of the entry and to the flags [Ldate | Ltime], and the entry is
    added to what was written. *)
Definition add_logged (l : Stream * string) (w : World) : World :=
  append_logged l (set_log_flags 3 (set_log_output (fst l) w)).

(** The world after [DebugPrint]. *)
Definition debug_logged (message : string) (w : World) : World :=
  if debugMode w then add_logged (log_line debugLevel message) w else w.

(** What [callWeatherAPI] returns for an answer of the provider. *)
Definition client_result (r : Reply) : json.text * option error :=
  match r with
  | Unreachable err => (json.empty, Some err)
  | Unreadable err => (json.empty, Some err)
  | Body body =>
      match json.Unmarshal body with
      | (_, Some err) => (json.empty, Some err)
      | (result, None) => (fst (json.Marshal_map result), None)
      end
  end.

(** What [callWeatherAPI] logs for an answer of the provider. *)
Definition client_logged (r : Reply) (w : World) : World :=
  match r with
  | Unreachable _ => add_logged (log_line errorLevel "Call to Weather API failed") w
  | Unreadable _ =>
      add_logged
        (log_line errorLevel "Unable to extract body data from Weather API response") w
  | Body body =>
      match json.Unmarshal body with
      | (_, Some _) => add_logged (log_line errorLevel "Failed to convert body data") w
      | (result, None) =>
          debug_logged
            ("Weather data: " +:+ json.string_of (fst (json.Marshal_map result))) w
      end
  end.

(** The client fails with [err]: the provider is unreachable, its body
    cannot be read, or the body does not decode into a map. *)
Definition client_fails (r : Reply) (err : error) : Prop :=
  r = Unreachable err
  ∨ r = Unreadable err
  ∨ ∃ body, r = Body body ∧ snd (json.Unmarshal body) = Some err.

(** The location the handler asks the client for. *)
Definition location_of (req : http.Request) : string :=
  let text := url.Get (http.Query req) "text" in
  if decide (text = "") then "auto:ip" else text.

(** The [text] parameter is absent (no value under the key) or its value
    is the empty string. *)
Definition text_absent_or_empty (req : http.Request) : Prop :=
  http.Query req !! "text" = None
  ∨ http.Query req !! "text" = Some []
  ∨ ∃ more, http.Query req !! "text" = Some ("" :: more).

(** The three values the handler extracts from the client's result. *)
Definition extract (data : json.text) : string * strconv.float64 * string :=
  (fst (jsonparser.GetString data ["location"; "name"]),
   fst (jsonparser.GetFloat data ["current"; "temp_c"]),
   fst (jsonparser.GetString data ["current"; "condition"; "text"])).

(** The message the handler renders from the client's result. *)
Definition message_of (apiResponse : json.text) : string :=
  fmt.Sprintf responseFormat
    [fmt.Str (fst (jsonparser.GetString apiResponse ["location"; "name"]));
     fmt.Float64 (fst (jsonparser.GetFloat apiResponse ["current"; "temp_c"]));
     fmt.Str (fst (jsonparser.GetString apiResponse ["current"; "condition"; "text"]))].

(** The reply body for a message. *)
Definition envelope (message : string) : string :=
  fst (Marshal {| ResponseType := "in_channel"; Text := message |}).

(** The world when the handler calls the client, and when the client is
    back. *)
Definition before_call (req : http.Request) (w : World) : World :=
  debug_logged ("Text: " +:+ url.Get (http.Query req) "text")
    (add_logged (log_line infoLevel "Received inbound request") w).

Definition after_call (os : OS) (req : http.Request) (w : World) : World :=
  let u := request_url (weatherAPIKey w) (location_of req) in
  client_logged (fetch os u)
    (add_requested u
       (debug_logged ("Calling weather API for location: " +:+ location_of req)
          (before_call req w))).

(** The last byte of a string. *)
Fixpoint last_byte (s : string) : option ascii :=
  match s with
  | EmptyString => None
  | String c r =>
      match last_byte r with
      | Some l => Some l
      | None => Some c
      end
  end.



(** *** The message of the specification *)

(** The degree sign U+00B0 in UTF-8. *)
Definition degree : string := bytes [194; 176]%N.

(** The message as the specification words it:
    [Current weather in {name}: {temp}°C - {condition}]. *)
Definition claimed_message (name temp condition : string) : string :=
  "Current weather in " +:+ name +:+ ": " +:+ temp +:+ degree +:+ "C - " +:+ condition.

(** The message as [responseFormat] renders it. *)
Definition rendered_message (name temp condition : string) : string :=
  "Current weather in " +:+ name +:+ ": " +:+ temp
    +:+ bytes [195; 130; 194; 176]%N +:+ "C - " +:+ condition.

(** The reply body of the specification for the three values. *)
Definition claimed_envelope (name temp condition : string) : string :=
  "{" +:+ dq +:+ "response_type" +:+ dq +:+ ":" +:+ dq +:+ "in_channel" +:+ dq +:+ ","
      +:+ dq +:+ "text" +:+ dq +:+ ":" +:+ dq +:+ claimed_message name temp condition
      +:+ dq +:+ "}".

(** The reply body the code writes for the three values. *)
Definition rendered_envelope (name temp condition : string) : string :=
  "{" +:+ dq +:+ "response_type" +:+ dq +:+ ":" +:+ dq +:+ "in_channel" +:+ dq +:+ ","
      +:+ dq +:+ "text" +:+ dq +:+ ":" +:+ dq +:+ rendered_message name temp condition
      +:+ dq +:+ "}".

(** *** Sample inputs *)

(** 21.5 as a float64. *)
Definition temp_21_5 : strconv.float64 := strconv.of_decimal 215 (-1).

(** The members of a provider body with the three fields. *)
Definition paris_members : list (json.literal * json.value) :=
  [(json.plain "location",
    json.JObject [(json.plain "name", json.JString (json.plain "Paris"))]);
   (json.plain "current",
    json.JObject
      [(json.plain "temp_c", json.JNumber "21.5" temp_21_5);
       (json.plain "condition",
        json.JObject [(json.plain "text", json.JString (json.plain "Sunny"))])])].

Definition paris : json.value := json.JObject paris_members.

(** The members of a provider body that spells the member [location]
    twice. *)
Definition twice_located_members : list (json.literal * json.value) :=
  [(json.plain "location",
    json.JObject [(json.plain "name", json.JString (json.plain "Paris"))]);
   (json.plain "location",
    json.JObject [(json.plain "name", json.JString (json.plain "London"))])].

Definition twice_located : json.value := json.JObject twice_located_members.

(** The members of a provider body whose name is the byte FF, which is no
    UTF-8, and of one whose name is the escape of a surrogate without its
    partner: the decoder reads U+FFFD for both, jsonparser the byte
    itself for the first and an error for the second. *)
Definition invalid_name_members : list (json.literal * json.value) :=
  [(json.plain "location",
    json.JObject [(json.plain "name", json.JString (json.plain (bytes [255]%N)))])].

Definition unpaired_name_members : list (json.literal * json.value) :=
  [(json.plain "location",
    json.JObject
      [(json.plain "name",
        json.JString
          {| json.raw := "\ud800"; json.unquoted := json.replacement;
             json.unescaped := None |})])].

(** The members of a provider body with a number out of the range of
    float64. *)
Definition overflowing_members : list (json.literal * json.value) :=
  [(json.plain "current",
    json.JObject [(json.plain "temp_c", json.JNumber "1e999" (S754_infinity false))])].

(** A host without environment variables and without a configuration
    file, whose provider cannot be reached. *)
Definition bare : OS :=
  {| environ := ∅;
     config_files := λ _, inr (ConfigError "open config.json: no such file or directory");
     fetch := λ _, Unreachable (NetError "connection refused");
     listen_error := λ _, None |}.

(** [os] with a provider that answers every GET with one body. *)
Definition answering (body : json.text) (os : OS) : OS :=
  {| environ := environ os; config_files := config_files os;
     fetch := λ _, Body body; listen_error := listen_error os |}.

(** A request without a query. *)
Definition plain_request : http.Request := {| http.Query := ∅ |}.

(** A host that sets both variables to the empty string and has a file
    with both entries. *)
Definition empty_variables : OS :=
  {| environ := {[ "WEATHER_API_TOKEN" := ""; "MM_LISTEN_PORT" := "" ]};
     config_files := λ _, inl {[ "apikey" := "secret"; "listenport" := "9000" ]};
     fetch := λ _, Unreachable (NetError "connection refused");
     listen_error := λ _, None |}.

(** A host with a file with both entries and nothing in the environment. *)
Definition file_only : OS :=
  {| environ := ∅;
     config_files := λ _, inl {[ "apikey" := "secret"; "listenport" := "9000" ]};
     fetch := λ _, Unreachable (NetError "connection refused");
     listen_error := λ _, None |}.

(** The command line [-token secret]. *)
Definition token_flag : Flags :=
  {| debugFlag := false; configFile := "config.json"; apiToken := "secret";
     listenPort := "" |}.

(** *** Decoding and encoding again *)

(** The body decodes: [json.Unmarshal] returns no error. *)
Definition decodes (body : json.text) : Prop :=
  snd (json.Unmarshal body) = None.

(** The name of a member as the decoder reads it. *)
Definition name_of (m : json.literal * json.value) : string :=
  json.unquoted (fst m).

(** The members of an object, assigned to a Go map in turn: the loop
    inside [json.decode]. *)
Fixpoint assign (ms : list (json.literal * json.value)) (m : list (string * json.any))
    : list (string * json.any) :=
  match ms with
  | [] => m
  | (k, x) :: r => assign r (json.map_set (json.unquoted k) (json.decode x) m)
  end.

(** The scan of [jsonparser.searchKeys] over the members of one object. *)
Definition scan (k : string) (ks : list string)
    : list (json.literal * json.value) → jsonparser.found :=
  fix scan ms :=
    match ms with
    | [] => jsonparser.NotFound
    | (name, v) :: rest =>
        match json.unescaped name with
        | None => jsonparser.GaveUp
        | Some n =>
            if String.eqb n k then
              match jsonparser.searchKeys ks v with
              | jsonparser.NotFound => scan rest
              | r => r
              end
            else scan rest
        end
    end.

(** What the weather client returns for a body it decodes. *)
Definition reencoded (body : json.text) : json.text :=
  fst (json.Marshal_map (fst (json.Unmarshal body))).

(** No object met on the way down the path has two members of one name. *)
Fixpoint unique_along (keys : list string) (v : json.value) : bool :=
  match keys with
  | [] => true
  | k :: ks =>
      match v with
      | json.JObject ms =>
          bool_decide (NoDup (map name_of ms))
          && forallb
               (fun m => if String.eqb (name_of m) k then unique_along ks (snd m) else true)
               ms
      | _ => true
      end
  end.

(** The same for the three paths the handler reads. *)
Definition unique_on_paths (v : json.value) : bool :=
  unique_along ["location"; "name"] v
  && unique_along ["current"; "temp_c"] v
  && unique_along ["current"; "condition"; "text"] v.

(** Both readers take the literal for the same string: jsonparser reads
    what the decoder reads, and that is valid UTF-8 (as all that
    [unquote] returns). *)
Definition read_alike (l : json.literal) : bool :=
  bool_decide (json.unescaped l = Some (json.unquoted l))
  && String.eqb (json.coerced (json.unquoted l)) (json.unquoted l).

(** On the way down the path both readers read alike every member name
    of the objects met and, where a string is looked for ([str]), the
    string at the end of the path if there is one. *)
Fixpoint alike_along (str : bool) (keys : list string) (v : json.value) : bool :=
  match keys with
  | [] =>
      match v with
      | json.JString l => negb str || read_alike l
      | _ => true
      end
  | k :: ks =>
      match v with
      | json.JObject ms =>
          forallb
            (fun m =>
               read_alike (fst m)
               && (if String.eqb (name_of m) k then alike_along str ks (snd m) else true))
            ms
      | _ => true
      end
  end.

(** The same for the three paths the handler reads: a string is looked
    for at [location.name] and at [current.condition.text]. *)
Definition alike_on_paths (v : json.value) : bool :=
  alike_along true ["location"; "name"] v
  && alike_along false ["current"; "temp_c"] v
  && alike_along true ["current"; "condition"; "text"] v.

(** *** Claims as the specification states them *)

(** C9 as stated: for a body that decodes as an object, the values
    extracted from the client's result are those extracted from the body,
    and so is the message. *)
Definition C9_claim (members : list (json.literal * json.value)) : Prop :=
  let body := json.Wellformed (json.JObject members) in
  decodes body →
  extract (reencoded body) = extract body
  ∧ message_of (reencoded body) = message_of body.

(** C10 as stated: a body that is JSON but no object is answered with
    status 500. *)
Definition C10_claim (v : json.value) (os : OS) (req : http.Request) (w : World) : Prop :=
  (∀ members, v ≠ json.JObject members) →
  ∃ reply,
    fst (weatherHandler (answering (json.Wellformed v) os) (http.fresh None) req w)
      = Return reply
    ∧ http.status reply = Some 500.

(** The first string of a list that is not empty. *)
Fixpoint first_nonempty (l : list string) : option string :=
  match l with
  | [] => None
  | s :: r => if decide (s = "") then first_nonempty r else Some s
  end.

(** The value of a setting in the configuration file, the empty string when
    the file cannot be read or lacks the key. *)
Definition file_setting (os : OS) (flags : Flags) (key : string) : string :=
  match config_files os (configFile flags) with
  | inl settings => default "" (settings !! key)
  | inr _ => ""
  end.

(** How [main] ends once it calls [http.ListenAndServe]: it serves, or
    panics with the error of the bind. *)
Definition serve (os : OS) (addr : string) : Outcome unit :=
  match listen_error os addr with
  | Some err => Panic err
  | None => Serving addr
  end.

(** C6 as stated: the key is the first non-empty one of flag, environment
    variable and file entry; without one the process exits with status 2. *)
Definition C6_claim (os : OS) (flags : Flags) : Prop :=
  match first_nonempty
          [apiToken flags;
           default "" (environ os !! "WEATHER_API_TOKEN");
           file_setting os flags "apikey"] with
  | Some key =>
      weatherAPIKey (snd (main os flags boot)) = key
      ∧ ∃ addr, fst (main os flags boot) = serve os addr
  | None => fst (main os flags boot) = Exit 2
  end.

(** C7 as stated: when the process gets as far as listening, the port is
    the first non-empty one of flag, environment variable, file entry and
    8080. *)
Definition C7_claim (os : OS) (flags : Flags) : Prop :=
  (∃ addr, fst (main os flags boot) = serve os addr) →
  ∃ port,
    first_nonempty
      [listenPort flags;
       default "" (environ os !! "MM_LISTEN_PORT");
       file_setting os flags "listenport";
       defaultPort] = Some port
    ∧ fst (main os flags boot) = serve os (":" +:+ port).

(** *** The resolution order of the code *)

(** The key: the flag when it is not empty; else the environment variable
    when it is set, whatever its value; else the file's entry, or the error
    of reading the file. *)
Definition amended_apiKey (os : OS) (flags : Flags) : string + error :=
  if decide (apiToken flags = "") then
    match environ os !! "WEATHER_API_TOKEN" with
    | Some value => inl value
    | None =>
        match config_files os (configFile flags) with
        | inl settings => inl (default "" (settings !! "apikey"))
        | inr err => inr err
        end
    end
  else inl (apiToken flags).

(** The settings of the file when it was read for the key. *)
Definition file_was_read (os : OS) (flags : Flags) : option (gmap string string) :=
  if decide (apiToken flags = "") then
    match environ os !! "WEATHER_API_TOKEN" with
    | Some _ => None
    | None =>
        match config_files os (configFile flags) with
        | inl settings => Some settings
        | inr _ => None
        end
    end
  else None.

(** The port: the flag when it is not empty; else the environment variable
    when it is set, whatever its value; else, when the file was read for
    the key, its entry, and 8080 when that is empty.  [None] where the file
    was not read. *)
Definition amended_listenPort (os : OS) (flags : Flags) : option string :=
  if decide (listenPort flags = "") then
    match environ os !! "MM_LISTEN_PORT" with
    | Some value => Some value
    | None =>
        match file_was_read os flags with
        | Some settings =>
            let entry := default "" (settings !! "listenport") in
            Some (if decide (entry = "") then defaultPort else entry)
        | None => None
        end
    end
  else Some (listenPort flags).

(** The port [main] listens on. *)
Definition actual_port (os : OS) (flags : Flags) : string :=
  if decide (listenPort flags = "") then
    match environ os !! "MM_LISTEN_PORT" with
    | Some value => value
    | None =>
        let entry := default "" (default ∅ (file_was_read os flags) !! "listenport") in
        if decide (entry = "") then defaultPort else entry
    end
  else listenPort flags.

(** The two resolutions inside [main], named. *)
Definition key_phase (os : OS) (flags : Flags) : Go string :=
  if decide (apiToken flags = "") then
    match environ os !! "WEATHER_API_TOKEN" with
    | None =>
        viper.SetConfigFile (configFile flags);;
        err ← viper.ReadInConfig os;
        match err with
        | Some err => panic (WrapError "fatal error processing config file: " err)
        | None =>
            apiToken ← viper.GetString "apiKey";
            DebugPrint "Obtained API key from config file";;
            mret apiToken
        end
    | Some apiToken =>
        DebugPrint "Obtained API key from environment";;
        mret apiToken
    end
  else
    DebugPrint "Obtained API key from command line";;
    mret (apiToken flags).

Definition port_phase (os : OS) (flags : Flags) : Go string :=
  if decide (listenPort flags = "") then
    match environ os !! "MM_LISTEN_PORT" with
    | None =>
        listenPort ← viper.GetString "listenPort";
        if decide (listenPort = "") then
          DebugPrint ("Using default listen port: " +:+ defaultPort);;
          mret defaultPort
        else
          DebugPrint ("Obtained listen port '" +:+ listenPort +:+ "' from config file");;
          mret listenPort
    | Some listenPort =>
        DebugPrint ("Obtained listen port '" +:+ listenPort +:+ "' from environment");;
        mret listenPort
    end
  else
    DebugPrint ("Obtained listen port '" +:+ listenPort flags +:+ "' from command line");;
    mret (listenPort flags).

(** ** The rest of weather.go *)

(** What [os.Stat] finds at a path: a file or a directory, nothing
    ([os.IsNotExist] holds of the error), or another error. *)
Inductive StatResult :=
| StatInfo (isDir : bool)
| StatNotExist
| StatFailed (err : error).

(** [FileExists]: true for a path that is there and is no directory.  A
    path that is not there is no error; a directory is reported on the
    log. *)
Definition FileExists (stat : string → StatResult) (filename : string)
    : Go (bool * option error) :=
  match stat filename with
  | StatNotExist => mret (false, None)
  | StatFailed err => mret (false, Some err)
  | StatInfo isDir =>
      if isDir then
        LogMessage errorLevel (filename +:+ " is a directory!");;
        mret (false, None)
      else mret (true, None)
  end.

(** *** More vocabulary *)

(** The last member of a name, as the decoder reads names, among the
    members of an object. *)
Fixpoint last_member (k : string) (ms : list (json.literal * json.value))
    : option json.value :=
  match ms with
  | [] => None
  | m :: rest =>
      match last_member k rest with
      | Some x => Some x
      | None => if String.eqb (name_of m) k then Some (snd m) else None
      end
  end.

(** The value at a path, taking at every object the last member of the
    name. *)
Fixpoint path_last (keys : list string) (v : json.value) : option json.value :=
  match keys with
  | [] => Some v
  | k :: ks =>
      match v with
      | json.JObject ms =>
          match last_member k ms with
          | Some x => path_last ks x
          | None => None
          end
      | _ => None
      end
  end.

(** A string found, as the decoder reads it and the encoder writes it
    back, the empty string otherwise; a number found, zero otherwise. *)
Definition decoded_string (v : option json.value) : string :=
  match v with
  | Some (json.JString l) => json.coerced (json.unquoted l)
  | _ => ""
  end.

Definition decoded_float (v : option json.value) : strconv.float64 :=
  match v with
  | Some (json.JNumber _ f) => if json.in_range f then f else strconv.zero
  | _ => strconv.zero
  end.

(** The three values of a body as the decoder reads it. *)
Definition decoded_values (v : json.value) : string * strconv.float64 * string :=
  (decoded_string (path_last ["location"; "name"] v),
   decoded_float (path_last ["current"; "temp_c"] v),
   decoded_string (path_last ["current"; "condition"; "text"] v)).

(** What the handler takes from the end of a search: the string, the
    number. *)
Definition found_string (r : jsonparser.found) : string :=
  match r with
  | jsonparser.Found (json.JString l) => default "" (json.unescaped l)
  | _ => ""
  end.

Definition found_float (r : jsonparser.found) : strconv.float64 :=
  match r with
  | jsonparser.Found (json.JNumber _ f) => if json.in_range f then f else strconv.zero
  | _ => strconv.zero
  end.

(** An entry of a Go map as the encoder writes it: the key as a string
    literal. *)
Definition written_member (p : string * json.value) : json.literal * json.value :=
  (json.written (fst p), snd p).

(** Every byte of a string is ASCII. *)
Fixpoint is_ascii (s : string) : bool :=
  match s with
  | EmptyString => true
  | String c r => (N_of_ascii c <? 128)%N && is_ascii r
  end.

(** Every byte of a string passes a test. *)
Fixpoint all_bytes (p : ascii → bool) (s : string) : bool :=
  match s with
  | EmptyString => true
  | String c r => p c && all_bytes p r
  end.

(** A byte that cannot end or split a query value: a letter, a digit or
    one of [-], [_], [.], [~], [+], [%]. *)
Definition query_value_byte (c : ascii) : bool :=
  negb (url.shouldEscape c) || Ascii.eqb c "+" || Ascii.eqb c "%".

(** The line a failing client logs. *)
Definition client_error_lines (r : Reply) : list (Stream * string) :=
  match r with
  | Unreachable _ => [log_line errorLevel "Call to Weather API failed"]
  | Unreadable _ =>
      [log_line errorLevel "Unable to extract body data from Weather API response"]
  | Body body =>
      match snd (json.Unmarshal body) with
      | Some _ => [log_line errorLevel "Failed to convert body data"]
      | None => []
      end
  end.

(** The line the handler logs when the client succeeds and the writer
    reports an error. *)
Definition write_error_lines (r : Reply) (broken : option string)
    : list (Stream * string) :=
  match snd (client_result r), broken with
  | None, Some writeErr =>
      [log_line errorLevel ("Error posting response to Mattermost: " +:+ writeErr)]
  | _, _ => []
  end.

(** A byte that ends or splits a query value. *)
Definition query_delimiter (c : ascii) : bool :=
  Ascii.eqb c "&" || Ascii.eqb c "=" || Ascii.eqb c "#" || Ascii.eqb c "?"
  || Ascii.eqb c ";" || Ascii.eqb c "/" || Ascii.eqb c " ".

(** A host whose file holds both entries and whose environment holds the
    key. *)
Definition key_in_environment : OS :=
  {| environ := {[ "WEATHER_API_TOKEN" := "secret" ]};
     config_files := λ _, inl {[ "apikey" := "other"; "listenport" := "9000" ]};
     fetch := λ _, Unreachable (NetError "connection refused");
     listen_error := λ _, None |}.

(** A file system with one directory and one file. *)
Definition sample_stat (path : string) : StatResult :=
  if String.eqb path "config.json" then StatInfo false
  else if String.eqb path "/etc" then StatInfo true
  else StatNotExist.

(** * Properties *)

(** ** Strings *)

Section Strings.

Lemma append_nil_r s : s +:+ "" = s.
Proof.
  induction s as [|c s IH]; [reflexivity|].
  change (String c (s +:+ "") = String c s). by rewrite IH.
Qed.

Lemma append_assoc s t u : (s +:+ t) +:+ u = s +:+ (t +:+ u).
Proof.
  induction s as [|c s IH]; [reflexivity|].
  change (String c ((s +:+ t) +:+ u) = String c (s +:+ (t +:+ u))). by rewrite IH.
Qed.

Lemma last_byte_app s t : t ≠ "" → last_byte (s +:+ t) = last_byte t.
Proof.
  intros Ht. induction s as [|c s IH]; [reflexivity|].
  change (last_byte (String c (s +:+ t)) = last_byte t). simpl. rewrite IH.
  destruct t as [|d t]; [done|]. simpl. by destruct (last_byte t).
Qed.

End Strings.

(** ** fmt.Sprintf on the formats of the program *)

Section Formats.

Lemma Sprintf_url a b c d :
  fmt.Sprintf "%s?key=%s&q=%s&%s" [fmt.Str a; fmt.Str b; fmt.Str c; fmt.Str d]
  = a +:+ "?key=" +:+ b +:+ "&q=" +:+ c +:+ "&" +:+ d.
Proof. simpl. by rewrite append_nil_r. Qed.

Lemma Sprintf_port p : fmt.Sprintf ":%s" [fmt.Str p] = ":" +:+ p.
Proof. simpl. by rewrite append_nil_r. Qed.

Lemma Sprintf_responseFormat name temp condition :
  fmt.Sprintf responseFormat [fmt.Str name; fmt.Float64 temp; fmt.Str condition]
  = rendered_message name (strconv.FormatFloat_g temp) condition.
Proof.
  unfold rendered_message. cbn [fmt.Sprintf responseFormat]. simpl.
  by rewrite append_nil_r.
Qed.

(** The rendered message differs from the specification's in the bytes
    after the temperature. *)
Lemma rendered_not_claimed name temp condition :
  rendered_message name temp condition ≠ claimed_message name temp condition.
Proof.
  unfold rendered_message, claimed_message. intros H.
  apply (String.app_inj "Current weather in ") in H.
  apply String.app_inj in H. apply (String.app_inj ": ") in H.
  apply String.app_inj in H. discriminate H.
Qed.

End Formats.

(** ** url.QueryEscape *)

Section Escaping.

Lemma QueryUnescape_escape_byte c t :
  url.QueryUnescape (url.escape_byte c +:+ t) =
  match url.QueryUnescape t with
  | Some t' => Some (String c t')
  | None => None
  end.
Proof. destruct c as [[] [] [] [] [] [] [] []]; reflexivity. Qed.

Lemma QueryUnescape_QueryEscape s : url.QueryUnescape (url.QueryEscape s) = Some s.
Proof.
  induction s as [|c s IH]; [reflexivity|].
  change (url.QueryEscape (String c s)) with (url.escape_byte c +:+ url.QueryEscape s).
  by rewrite QueryUnescape_escape_byte, IH.
Qed.



(** The example of the specification, and what a second escaping would
    have made of it. *)
Example QueryEscape_New_York :
  url.QueryEscape "New York,US" = "New+York%2CUS"
  ∧ url.QueryEscape (url.QueryEscape "New York,US") = "New%2BYork%252CUS".
Proof. split; reflexivity. Qed.

End Escaping.

(** ** Running the effects *)

Section Effects.

Lemma bind_run {A B} (m : Go A) (f : A → Go B) w a w' :
  m w = (Return a, w') → (m ≫= f) w = f a w'.
Proof. unfold mbind, Go_bind. by intros ->. Qed.

Lemma terminated_line s : log.terminated (s +:+ nl) = s +:+ nl.
Proof.
  induction s as [|c s IH]; [reflexivity|].
  change (log.terminated (String c (s +:+ nl)) = String c (s +:+ nl)).
  destruct s as [|d s]; [reflexivity|].
  change (String c (log.terminated (String d s +:+ nl)) = String c (String d s +:+ nl)).
  by rewrite IH.
Qed.

Lemma Sprintf_log level message :
  fmt.Sprintf ("[%s] %s" +:+ nl) [fmt.Str level; fmt.Str message]
  = "[" +:+ level +:+ "] " +:+ message +:+ nl.
Proof.
  change ("[" +:+ level +:+ "] " +:+ message +:+ nl +:+ "" = "[" +:+ level +:+ "] " +:+ message +:+ nl).
  by rewrite !append_nil_r.
Qed.

Lemma LogMessage_run level message w :
  LogMessage level message w = (Return tt, add_logged (log_line level message) w).
Proof.
  unfold LogMessage, log.Printf, mbind, Go_bind, get, modify, log.SetFlags.
  rewrite Sprintf_log.
  replace ("[" +:+ level +:+ "] " +:+ message +:+ nl)
    with (("[" +:+ level +:+ "] " +:+ message) +:+ nl) by (by rewrite !append_assoc).
  rewrite terminated_line, !append_assoc.
  unfold log_line, add_logged, log.SetOutput, modify.
  by destruct (decide (level = errorLevel)).
Qed.

Lemma DebugPrint_run message w :
  DebugPrint message w = (Return tt, debug_logged message w).
Proof.
  unfold DebugPrint, debug_logged, mbind, Go_bind, get.
  destruct (debugMode w); [apply LogMessage_run | reflexivity].
Qed.

Lemma GetString_run key w :
  viper.GetString key w
  = (Return (default "" (viper_settings w !! viper.ToLower key)), w).
Proof. reflexivity. Qed.

Lemma ReadInConfig_run os w :
  viper.ReadInConfig os w =
  match config_files os (viper_file w) with
  | inl settings => (Return None, set_viper_settings settings w)
  | inr err => (Return (Some err), w)
  end.
Proof.
  unfold viper.ReadInConfig, mbind, Go_bind, get.
  destruct (config_files os (viper_file w)); reflexivity.
Qed.

Lemma listen_run os addr w :
  (err ← ListenAndServe os addr; panic err) w = (serve os addr, w).
Proof.
  unfold ListenAndServe, serve, mbind, Go_bind, panic.
  destruct (listen_error os addr); reflexivity.
Qed.

(** Logging leaves the rest of the world alone. *)

Lemma weatherAPIKey_debug_logged m w : weatherAPIKey (debug_logged m w) = weatherAPIKey w.
Proof. unfold debug_logged. by destruct (debugMode w). Qed.

Lemma debugMode_debug_logged m w : debugMode (debug_logged m w) = debugMode w.
Proof. unfold debug_logged. by destruct (debugMode w) eqn:E. Qed.

Lemma viper_settings_debug_logged m w : viper_settings (debug_logged m w) = viper_settings w.
Proof. unfold debug_logged. by destruct (debugMode w). Qed.

Lemma requested_debug_logged m w : requested (debug_logged m w) = requested w.
Proof. unfold debug_logged. by destruct (debugMode w). Qed.

Lemma logged_debug_logged m w :
  logged (debug_logged m w) =
  if debugMode w then (logged w ++ [log_line debugLevel m])%list else logged w.
Proof. unfold debug_logged. by destruct (debugMode w). Qed.

Lemma requested_client_logged r w : requested (client_logged r w) = requested w.
Proof.
  destruct r as [e|e|b]; simpl; try reflexivity.
  destruct (json.Unmarshal b) as [res [e|]]; [reflexivity|apply requested_debug_logged].
Qed.

Lemma logged_client_logged r w : ∃ more, logged (client_logged r w) = (logged w ++ more)%list.
Proof.
  destruct r as [e|e|b]; simpl; try (eexists; reflexivity).
  destruct (json.Unmarshal b) as [res [e|]]; [eexists; reflexivity|].
  rewrite logged_debug_logged. destruct (debugMode w); eexists; [reflexivity|].
  by rewrite app_nil_r.
Qed.

End Effects.

Create Rewrite HintDb world.

#[local] Hint Rewrite weatherAPIKey_debug_logged debugMode_debug_logged
  viper_settings_debug_logged requested_debug_logged requested_client_logged : world.

(** One step of a run: the effect at the head of a bind. *)
Ltac step :=
  first [ erewrite bind_run by apply LogMessage_run
        | erewrite bind_run by apply DebugPrint_run
        | erewrite bind_run by apply GetString_run
        | erewrite bind_run by reflexivity ].

(** ** The decoder and the encoder *)

Section Texts.

(** Induction on a value, with the hypothesis for every item of an array
    and every member of an object. *)
Lemma value_ind' (P : json.value → Prop) :
  P json.JNull → (∀ b, P (json.JBool b)) → (∀ lit f, P (json.JNumber lit f)) →
  (∀ l, P (json.JString l)) →
  (∀ items, Forall P items → P (json.JArray items)) →
  (∀ ms, Forall (λ m, P (snd m)) ms → P (json.JObject ms)) →
  ∀ v, P v.
Proof.
  intros Hn Hb Hf Hs Ha Ho. fix IH 1. intros [|b|lit f|l|items|ms].
  - exact Hn.
  - apply Hb.
  - apply Hf.
  - apply Hs.
  - apply Ha. induction items as [|x r IHr]; constructor; [apply IH|exact IHr].
  - apply Ho. induction ms as [|[n x] r IHr]; constructor; [apply IH|exact IHr].
Qed.

Lemma decode_object ms : json.decode (json.JObject ms) = json.GoMap (assign ms []).
Proof. reflexivity. Qed.

Lemma encode_map_unfold entries :
  json.encode (json.GoMap entries) =
  match json.members_of
          (merge_sort json.key_le
             (map (fun e => (fst e, json.encode (snd e))) entries)) with
  | inl ms => inl (json.JObject ms)
  | inr e => inr e
  end.
Proof. reflexivity. Qed.

(** *** Go maps as lists of entries *)

Lemma map_get_map_set_eq {A} k (x : A) m : json.map_get k (json.map_set k x m) = Some x.
Proof.
  induction m as [|[n y] r IH]; simpl.
  - by rewrite String.eqb_refl.
  - destruct (String.eqb_spec n k) as [->|Hne]; simpl.
    + by rewrite String.eqb_refl.
    + destruct (String.eqb_spec n k); [done|exact IH].
Qed.

Lemma map_get_map_set_ne {A} k k' (x : A) m :
  k' ≠ k → json.map_get k' (json.map_set k x m) = json.map_get k' m.
Proof.
  intros Hne. induction m as [|[n y] r IH]; simpl.
  - destruct (String.eqb_spec k k'); [congruence|reflexivity].
  - destruct (String.eqb_spec n k) as [->|Hn]; simpl.
    + destruct (String.eqb_spec k k'); [congruence|reflexivity].
    + destruct (String.eqb_spec n k'); [reflexivity|exact IH].
Qed.

Lemma elem_of_map_set_keys {A} k k' (x : A) m :
  k' ∈ map fst (json.map_set k x m) ↔ k' = k ∨ k' ∈ map fst m.
Proof.
  induction m as [|[n y] r IH]; simpl.
  - rewrite list_elem_of_singleton. split; [by left|]. intros [H|H]; [done|].
    by apply elem_of_nil in H.
  - destruct (String.eqb_spec n k) as [->|Hn]; simpl.
    + rewrite !elem_of_cons. tauto.
    + rewrite !elem_of_cons, IH. tauto.
Qed.

(** An assignment keeps the keys of a map distinct. *)
Lemma NoDup_map_set {A} k (x : A) m :
  NoDup (map fst m) → NoDup (map fst (json.map_set k x m)).
Proof.
  induction m as [|[n y] r IH]; intros H; simpl.
  - apply NoDup_singleton.
  - apply NoDup_cons in H as [Hn H].
    destruct (String.eqb_spec n k) as [->|Hne]; simpl.
    + by apply NoDup_cons.
    + apply NoDup_cons. split; [|by apply IH].
      rewrite elem_of_map_set_keys. intros [?|?]; done.
Qed.

Lemma NoDup_assign ms m : NoDup (map fst m) → NoDup (map fst (assign ms m)).
Proof.
  revert m. induction ms as [|[n v] r IH]; intros m H; [exact H|].
  simpl. apply IH. by apply NoDup_map_set.
Qed.

(** After the members are assigned, a key holds the last member of its
    name. *)
Lemma map_get_assign k ms m :
  json.map_get k (assign ms m) =
  match last_member k ms with
  | Some x => Some (json.decode x)
  | None => json.map_get k m
  end.
Proof.
  revert m. induction ms as [|[n v] r IH]; intros m; [reflexivity|].
  simpl. rewrite IH. destruct (last_member k r) as [x|]; [reflexivity|].
  unfold name_of. simpl.
  destruct (String.eqb_spec (json.unquoted n) k) as [->|Hne].
  - apply map_get_map_set_eq.
  - apply map_get_map_set_ne. congruence.
Qed.

Lemma last_member_elem_of k ms x : last_member k ms = Some x → x ∈ map snd ms.
Proof.
  induction ms as [|m r IH]; [done|]. simpl.
  destruct (last_member k r) as [y|].
  - intros [= ->]. right. by apply IH.
  - destruct (String.eqb (name_of m) k); [|done]. intros [= ->]. left.
Qed.

Lemma map_get_elem_of {A} k (v : A) ms :
  NoDup (map fst ms) → json.map_get k ms = Some v ↔ (k, v) ∈ ms.
Proof.
  induction ms as [|[n x] r IH]; intros Hnd; simpl.
  - split; [done|]. intros H. by apply elem_of_nil in H.
  - apply NoDup_cons in Hnd as [Hn Hnd].
    destruct (String.eqb_spec n k) as [->|Hne].
    + split.
      * intros [= ->]. left.
      * intros H. apply elem_of_cons in H as [[= ->]|H]; [done|].
        exfalso. apply Hn. apply list_elem_of_fmap. by exists (k, v).
    + rewrite IH by done. split; [by right|].
      intros H. apply elem_of_cons in H as [[= -> ->]|H]; done.
Qed.

Lemma map_get_perm {A} k (ms ms' : list (string * A)) :
  NoDup (map fst ms) → ms ≡ₚ ms' → json.map_get k ms = json.map_get k ms'.
Proof.
  intros Hnd Hp.
  assert (NoDup (map fst ms')) as Hnd' by (by rewrite <- Hp).
  apply option_eq. intros v.
  rewrite !map_get_elem_of by done. by rewrite Hp.
Qed.

Lemma map_get_map {A B} (g : A → B) k (l : list (string * A)) :
  json.map_get k (map (fun e => (fst e, g (snd e))) l) = g <$> json.map_get k l.
Proof.
  induction l as [|[n a] r IH]; [reflexivity|]. simpl.
  destruct (String.eqb n k); [reflexivity|exact IH].
Qed.

Lemma Forall_map_set {A} (Q : A → Prop) k x m :
  Q x → Forall (λ e, Q (snd e)) m → Forall (λ e, Q (snd e)) (json.map_set k x m).
Proof.
  intros Hx. induction m as [|[n y] r IH]; intros H; simpl.
  - by constructor.
  - apply Forall_cons in H as [Hy H].
    destruct (String.eqb n k); constructor; auto.
Qed.

Lemma Forall_assign (Q : json.any → Prop) ms m :
  Forall (λ x, Q (json.decode (snd x))) ms →
  Forall (λ e, Q (snd e)) m → Forall (λ e, Q (snd e)) (assign ms m).
Proof.
  revert m. induction ms as [|[n v] r IH]; intros m Hms Hm; [exact Hm|].
  apply Forall_cons in Hms as [Hv Hms]. simpl.
  apply IH; [exact Hms|]. by apply Forall_map_set.
Qed.

(** *** What the decoder stores, the encoder writes *)

Lemma first_error_None l : json.first_error l = None ↔ Forall (λ o, o = None) l.
Proof.
  induction l as [|[e|] r IH]; simpl.
  - split; [constructor|done].
  - split; [done|]. intros H. by apply Forall_cons in H as [? _].
  - rewrite IH. split; [by constructor|]. intros H. by apply Forall_cons in H as [_ ?].
Qed.

Lemma range_error_items items :
  json.range_error (json.JArray items) = None →
  Forall (λ x, json.range_error x = None) items.
Proof.
  simpl. rewrite first_error_None, Forall_map. done.
Qed.

Lemma range_error_members ms :
  json.range_error (json.JObject ms) = None →
  Forall (λ m, json.range_error (snd m) = None) ms.
Proof.
  simpl. rewrite first_error_None, Forall_map. done.
Qed.

Lemma items_of_ok l :
  Forall (λ r, ∃ v, r = inl v) l → ∃ vs, json.items_of l = inl vs.
Proof.
  induction l as [|r l IH]; intros H; [by eexists|].
  apply Forall_cons in H as [[v ->] H]. destruct (IH H) as [vs Hvs].
  simpl. rewrite Hvs. by eexists.
Qed.

Lemma members_of_ok l :
  Forall (λ p, ∃ v, snd p = inl v) l → ∃ ms, json.members_of l = inl ms.
Proof.
  induction l as [|[k r] l IH]; intros H; [by eexists|].
  apply Forall_cons in H as [[v Hv] H]. simpl in Hv. subst r.
  destruct (IH H) as [ms Hms]. simpl. rewrite Hms. by eexists.
Qed.

(** A list of entries that are all written, as the entries written. *)
Lemma members_of_inv l ms :
  json.members_of l = inl ms →
  ∃ l' : list (string * json.value),
    l = map (fun p => (fst p, inl (snd p))) l'
    ∧ ms = map (fun p => (json.written (fst p), snd p)) l'.
Proof.
  revert ms. induction l as [|[k [v|e]] l IH]; intros ms; simpl.
  - intros [= <-]. by exists [].
  - destruct (json.members_of l) as [ms'|e] eqn:E; [|done].
    intros [= <-]. destruct (IH ms' eq_refl) as (l' & -> & ->).
    by exists ((k, v) :: l').
  - done.
Qed.

(** The encoder does not fail on what the decoder stored. *)
Lemma encode_decode v :
  json.range_error v = None → ∃ v', json.encode (json.decode v) = inl v'.
Proof.
  induction v as [|b|lit f|l|items IH|ms IH] using value_ind'; intros Hr.
  - by eexists.
  - by eexists.
  - simpl in *. destruct f; simpl in *; try done; by eexists.
  - by eexists.
  - apply range_error_items in Hr. simpl.
    destruct (items_of_ok (map json.encode (map json.decode items))) as [vs ->];
      [|by eexists].
    rewrite !Forall_map. eapply Forall_impl; [exact (proj2 (Forall_and _ _) (conj IH Hr))|].
    intros x [Hx Hx']. by apply Hx.
  - apply range_error_members in Hr. rewrite decode_object, encode_map_unfold.
    destruct (members_of_ok
                (merge_sort json.key_le
                   (map (fun e => (fst e, json.encode (snd e))) (assign ms []))))
      as [ms' ->]; [|by eexists].
    rewrite merge_sort_Permutation, Forall_map. simpl.
    apply (Forall_assign (λ a, ∃ v, json.encode a = inl v)); [|constructor].
    eapply Forall_impl; [exact (proj2 (Forall_and _ _) (conj IH Hr))|].
    intros x [Hx Hx']. by apply Hx.
Qed.

(** A body that decodes is written again. *)
Lemma Marshal_decoded body result :
  json.Unmarshal body = (result, None) →
  ∃ v, json.Marshal_map result = (json.Wellformed v, None).
Proof.
  destruct body as [why|v]; [done|]. unfold json.Unmarshal.
  destruct (json.depth_error v); [done|].
  destruct v as [|b|lit f|l|items|ms]; try done.
  - intros [= <-]. by eexists.
  - rewrite decode_object. intros [= <- Hr].
    destruct (encode_decode (json.JObject ms) Hr) as [v' Hv'].
    rewrite decode_object in Hv'. unfold json.Marshal_map. rewrite Hv'. by eexists.
Qed.

End Texts.

(** ** The weather client *)

Section Client.

Lemma callWeatherAPI_run os location w :
  let u := request_url (weatherAPIKey w) location in
  callWeatherAPI os location w =
  (Return (client_result (fetch os u)),
   client_logged (fetch os u)
     (add_requested u
        (debug_logged ("Calling weather API for location: " +:+ location) w))).
Proof.
  intros u. unfold callWeatherAPI. step.
  unfold mbind at 1, Go_bind at 1, get.
  rewrite Sprintf_url, weatherAPIKey_debug_logged.
  fold (request_url (weatherAPIKey w) location). fold u.
  unfold mbind at 1, Go_bind at 1, modify.
  destruct (fetch os u) as [err|err|body]; simpl.
  - by step.
  - by step.
  - destruct (json.Unmarshal body) as [result [err|]] eqn:E; [by step|].
    destruct (Marshal_decoded body result E) as [v ->]. by step.
Qed.

Lemma callWeatherAPI_value os location w :
  fst (callWeatherAPI os location w) =
  Return (client_result (fetch os (request_url (weatherAPIKey w) location))).
Proof. by rewrite callWeatherAPI_run. Qed.

Lemma client_result_fails r err :
  client_fails r err → client_result r = (json.empty, Some err).
Proof.
  intros [-> | [-> | (body & -> & H)]]; try reflexivity.
  simpl. destruct (json.Unmarshal body) as [res [e|]]; simpl in H; by simplify_eq.
Qed.

End Client.

(** ** The handler *)

Section Handler.

Lemma weatherAPIKey_before_call req w : weatherAPIKey (before_call req w) = weatherAPIKey w.
Proof. unfold before_call. by autorewrite with world. Qed.

Lemma Marshal_envelope message :
  Marshal {| ResponseType := "in_channel"; Text := message |} = (envelope message, None).
Proof. reflexivity. Qed.

(** The handler, run: the reply and the world it leaves, by the result of
    the client. *)
Lemma weatherHandler_run os rw req w :
  weatherHandler os rw req w =
  match client_result (fetch os (request_url (weatherAPIKey w) (location_of req))) with
  | (_, Some err) =>
      (Return (http.Error rw (Error err) http.StatusInternalServerError),
       after_call os req w)
  | (apiResponse, None) =>
      let sent :=
        http.Write
          (http.WriteHeader (http.Header_Set rw "Content-Type" "application/json")
             http.StatusOK)
          (envelope (message_of apiResponse)) in
      (Return (fst sent),
       match snd sent with
       | Some writeErr =>
           add_logged
             (log_line errorLevel ("Error posting response to Mattermost: " +:+ writeErr))
             (after_call os req w)
       | None => after_call os req w
       end)
  end.
Proof.
  unfold weatherHandler. step. step.
  fold (location_of req). fold (before_call req w).
  erewrite bind_run by apply callWeatherAPI_run.
  rewrite weatherAPIKey_before_call. fold (after_call os req w).
  destruct (client_result _) as [apiResponse [err|]]; [reflexivity|].
  rewrite Marshal_envelope. unfold message_of.
  destruct (http.Write _ _) as [rw' [writeErr|]]; simpl; [by step|reflexivity].
Qed.

Lemma requested_after_call os req w :
  requested (after_call os req w) =
  (requested w ++ [request_url (weatherAPIKey w) (location_of req)])%list.
Proof.
  unfold after_call. autorewrite with world. simpl.
  unfold before_call. by autorewrite with world.
Qed.

Lemma requested_weatherHandler os rw req w :
  requested (snd (weatherHandler os rw req w)) =
  (requested w ++ [request_url (weatherAPIKey w) (location_of req)])%list.
Proof.
  rewrite weatherHandler_run.
  destruct (client_result _) as [t [e|]]; [apply requested_after_call|].
  cbv zeta. unfold snd at 1.
  destruct (snd (http.Write _ _)); apply requested_after_call.
Qed.

Lemma logged_after_call os req w :
  debugMode w = true →
  log_line debugLevel ("Calling weather API for location: " +:+ location_of req)
    ∈ logged (after_call os req w).
Proof.
  intros Hd. unfold after_call.
  destruct (logged_client_logged
    (fetch os (request_url (weatherAPIKey w) (location_of req)))
    (add_requested (request_url (weatherAPIKey w) (location_of req))
       (debug_logged ("Calling weather API for location: " +:+ location_of req)
          (before_call req w)))) as [more ->].
  simpl. rewrite logged_debug_logged.
  unfold before_call at 1. rewrite debugMode_debug_logged. simpl. rewrite Hd.
  apply elem_of_app. left. apply elem_of_app. right. apply list_elem_of_singleton.
  reflexivity.
Qed.

Lemma logged_weatherHandler os rw req w :
  debugMode w = true →
  log_line debugLevel ("Calling weather API for location: " +:+ location_of req)
    ∈ logged (snd (weatherHandler os rw req w)).
Proof.
  intros Hd. pose proof (logged_after_call os req w Hd) as H.
  rewrite weatherHandler_run.
  destruct (client_result _) as [t [e|]]; [exact H|].
  cbv zeta. unfold snd at 1. destruct (snd (http.Write _ _)); [|exact H].
  simpl. apply elem_of_app. by left.
Qed.

Lemma location_of_default req : text_absent_or_empty req → location_of req = "auto:ip".
Proof.
  unfold location_of, url.Get, text_absent_or_empty.
  intros [H | [H | [more H]]]; rewrite H; reflexivity.
Qed.

Lemma last_byte_envelope p : last_byte (fst (Marshal p)) = Some "}"%char.
Proof. unfold Marshal, fst. rewrite !last_byte_app; done. Qed.

(** The reply to a decoded body: status 200, the JSON content type and the
    envelope of the message. *)
Lemma weatherHandler_success os req w apiResponse :
  client_result (fetch os (request_url (weatherAPIKey w) (location_of req)))
    = (apiResponse, None) →
  ∃ reply,
    fst (weatherHandler os (http.fresh None) req w) = Return reply
    ∧ http.status reply = Some 200
    ∧ http.Header reply !! "Content-Type" = Some "application/json"
    ∧ http.written reply = envelope (message_of apiResponse).
Proof.
  intros H. rewrite weatherHandler_run, H.
  eexists. split; [reflexivity|]. repeat split; reflexivity.
Qed.

End Handler.

(** ** The claims on the request path *)

(** C1 (the code departs from it).  The handler renders the message from
    the format of line 111; for every name, temperature and condition the
    result is the template with the bytes C3 82 C2 B0 where the
    specification has the degree sign C2 B0, so it is never the message
    the specification states. *)
Theorem C1_message_has_stray_bytes name temp condition :
  fmt.Sprintf responseFormat [fmt.Str name; fmt.Float64 temp; fmt.Str condition]
    = "Current weather in " +:+ name +:+ ": " +:+ strconv.FormatFloat_g temp
        +:+ bytes [195; 130; 194; 176]%N +:+ "C - " +:+ condition
  ∧ fmt.Sprintf responseFormat [fmt.Str name; fmt.Float64 temp; fmt.Str condition]
    ≠ claimed_message name (strconv.FormatFloat_g temp) condition.
Proof.
  rewrite Sprintf_responseFormat. split; [reflexivity|apply rendered_not_claimed].
Qed.

(** C3.  When the [text] parameter is absent or empty, the one request the
    handler sends to the provider carries [q=auto%3Aip], the escaped form
    of the sentinel [auto:ip], and in debug mode the client logs
    [auto:ip] as the location it was called with. *)
Theorem C3_absent_text_sends_auto_ip os rw req w :
  text_absent_or_empty req →
  requested (snd (weatherHandler os rw req w)) =
    (requested w ++
      [weatherAPIBase +:+ "?key=" +:+ weatherAPIKey w +:+ "&q=auto%3Aip&aqi=no"])%list
  ∧ url.QueryUnescape "auto%3Aip" = Some "auto:ip"
  ∧ (debugMode w = true →
     (Stdout, "[DEBUG] Calling weather API for location: auto:ip" +:+ nl)
       ∈ logged (snd (weatherHandler os rw req w))).
Proof.
  intros H. pose proof (location_of_default req H) as Hloc.
  split; [|split].
  - rewrite requested_weatherHandler, Hloc. reflexivity.
  - reflexivity.
  - intros Hd. pose proof (logged_weatherHandler os rw req w Hd) as Hl.
    rewrite Hloc in Hl. exact Hl.
Qed.

Lemma C3_witness :
  text_absent_or_empty plain_request
  ∧ requested (snd (weatherHandler bare (http.fresh None) plain_request boot)) =
      ["http://api.weatherapi.com/v1/current.json?key=&q=auto%3Aip&aqi=no"].
Proof.
  split; [by left|].
  apply (C3_absent_text_sends_auto_ip bare (http.fresh None) plain_request boot).
  by left.
Defined.

(** C4.  When the weather client fails (the provider is unreachable, the
    body cannot be read, or it does not decode), the client returns the
    error and the handler answers with status 500; the body is the text
    of the error on a line of its own (so it is not empty), the content
    type is plain text, and the body is no JSON envelope. *)
Theorem C4_client_error_is_500 os req w err :
  client_fails (fetch os (request_url (weatherAPIKey w) (location_of req))) err →
  fst (callWeatherAPI os (location_of req) w) = Return (json.empty, Some err)
  ∧ ∃ reply,
      fst (weatherHandler os (http.fresh None) req w) = Return reply
      ∧ http.status reply = Some 500
      ∧ http.written reply = Error err +:+ nl
      ∧ http.written reply ≠ ""
      ∧ http.Header reply !! "Content-Type" = Some "text/plain; charset=utf-8"
      ∧ ∀ payload, http.written reply ≠ fst (Marshal payload).
Proof.
  intros H. apply client_result_fails in H.
  split; [by rewrite callWeatherAPI_value, H|].
  exists (http.Error (http.fresh None) (Error err) http.StatusInternalServerError).
  split; [by rewrite weatherHandler_run, H|].
  split; [reflexivity|]. split; [reflexivity|].
  split. { change (Error err +:+ nl ≠ ""). by destruct (Error err). }
  split; [reflexivity|].
  intros payload Heq. apply (f_equal last_byte) in Heq.
  rewrite last_byte_envelope in Heq.
  change (last_byte (Error err +:+ nl) = Some "}"%char) in Heq.
  rewrite last_byte_app in Heq; done.
Qed.

Lemma C4_witness :
  ∃ reply,
    fst (weatherHandler bare (http.fresh None) plain_request boot) = Return reply
    ∧ http.status reply = Some 500
    ∧ http.written reply = "connection refused" +:+ nl.
Proof.
  destruct (C4_client_error_is_500 bare plain_request boot (NetError "connection refused"))
    as (_ & reply & H1 & H2 & H3 & _).
  - by left.
  - exists reply. by repeat split.
Defined.

(** ** Decoding and encoding again *)

Section Reencoding.

Lemma searchKeys_object k ks ms :
  jsonparser.searchKeys (k :: ks) (json.JObject ms) = scan k ks ms.
Proof. reflexivity. Qed.

Lemma scan_cons k ks name v rest :
  scan k ks ((name, v) :: rest) =
  match json.unescaped name with
  | None => jsonparser.GaveUp
  | Some n =>
      if String.eqb n k then
        match jsonparser.searchKeys ks v with
        | jsonparser.NotFound => scan k ks rest
        | r => r
        end
      else scan k ks rest
  end.
Proof. reflexivity. Qed.

(** *** Names in ASCII *)

Lemma substring_full s : String.substring 0 (String.length s) s = s.
Proof. induction s as [|c s IH]; [reflexivity|]. simpl. by rewrite IH. Qed.

Lemma take_one c r : strconv.take 1 (String c r) = String c "".
Proof. unfold strconv.take. simpl. by destruct r. Qed.

Lemma drop_one c r : strconv.drop 1 (String c r) = r.
Proof. unfold strconv.drop. simpl. rewrite Nat.sub_0_r. apply substring_full. Qed.

Lemma rune_size_ascii c r :
  (N_of_ascii c <? 128)%N = true → json.rune_size (String c r) = 1%nat.
Proof. intros H. unfold json.rune_size. by rewrite H. Qed.

Lemma coerce_step_ascii fuel c r :
  (N_of_ascii c <? 128)%N = true →
  json.coerce (S fuel) (String c r) = String c (json.coerce fuel r).
Proof.
  intros H. change (json.coerce (S fuel) (String c r)) with
    (match json.rune_size (String c r) with
     | O => json.replacement +:+ json.coerce fuel r
     | size => strconv.take size (String c r)
               +:+ json.coerce fuel (strconv.drop size (String c r))
     end).
  rewrite rune_size_ascii by done. cbv iota beta zeta.
  by rewrite take_one, drop_one.
Qed.

(** Outside ASCII, what a string is coerced to begins outside ASCII. *)
Lemma coerce_step_other fuel c r :
  (N_of_ascii c <? 128)%N = false →
  ∃ c' t, json.coerce (S fuel) (String c r) = String c' t
          ∧ (N_of_ascii c' <? 128)%N = false.
Proof.
  intros H. change (json.coerce (S fuel) (String c r)) with
    (match json.rune_size (String c r) with
     | O => json.replacement +:+ json.coerce fuel r
     | size => strconv.take size (String c r)
               +:+ json.coerce fuel (strconv.drop size (String c r))
     end).
  destruct (json.rune_size (String c r)) as [|n].
  - by eexists _, _.
  - exists c. eexists. split; [|exact H]. reflexivity.
Qed.

Lemma coerce_ascii fuel s :
  is_ascii s = true → (String.length s <= fuel)%nat → json.coerce fuel s = s.
Proof.
  revert s. induction fuel as [|fuel IH]; intros [|c r] Ha Hl; simpl in Hl;
    try reflexivity; try lia.
  simpl in Ha. apply andb_prop in Ha as [Hc Hr].
  rewrite coerce_step_ascii by done. rewrite IH; [reflexivity|done|lia].
Qed.

Lemma coerce_eq_ascii fuel s k :
  is_ascii k = true → (String.length s <= fuel)%nat → json.coerce fuel s = k → s = k.
Proof.
  revert s k. induction fuel as [|fuel IH]; intros [|c r] k Hk Hl; simpl in Hl;
    try lia.
  - by intros <-.
  - by intros <-.
  - destruct (N_of_ascii c <? 128)%N eqn:Hc.
    + rewrite coerce_step_ascii by done. intros <-.
      simpl in Hk. apply andb_prop in Hk as [_ Hk].
      f_equal. apply (IH r _ Hk); [lia|reflexivity].
    + destruct (coerce_step_other fuel c r Hc) as (c' & t & -> & Hc').
      intros <-. simpl in Hk. by rewrite Hc' in Hk.
Qed.

(** A name in ASCII is what the encoder's literal reads as only for the
    name itself. *)
Lemma coerced_eqb_ascii key k :
  is_ascii k = true → String.eqb (json.coerced key) k = String.eqb key k.
Proof.
  intros Hk. unfold json.coerced.
  destruct (String.eqb_spec key k) as [->|Hne].
  - rewrite coerce_ascii by done. apply String.eqb_refl.
  - destruct (String.eqb_spec (json.coerce (String.length key) key) k) as [He|]; [|done].
    by apply coerce_eq_ascii in He.
Qed.

(** *** The scan of an object the encoder wrote *)

Lemma scan_written k ks l :
  is_ascii k = true → NoDup (map fst l) →
  scan k ks (map written_member l) =
  match json.map_get k l with
  | Some v => jsonparser.searchKeys ks v
  | None => jsonparser.NotFound
  end.
Proof.
  intros Hk. induction l as [|[n v] r IH]; intros Hnd; [reflexivity|].
  apply NoDup_cons in Hnd as [Hn Hnd].
  change (map written_member ((n, v) :: r))
    with ((json.written n, v) :: map written_member r).
  rewrite scan_cons. cbn [json.unescaped json.written json.map_get].
  rewrite coerced_eqb_ascii by done.
  destruct (String.eqb_spec n k) as [->|Hne]; [|by apply IH].
  rewrite IH by done.
  destruct (json.map_get k r) as [v'|] eqn:E.
  - apply map_get_elem_of in E; [|done].
    exfalso. apply Hn. apply list_elem_of_fmap. by exists (k, v').
  - by destruct (jsonparser.searchKeys ks v).
Qed.

(** What the encoder writes for a map with distinct keys: its entries,
    each encoded, under the keys as literals. *)
Lemma encode_map_inv entries v' :
  NoDup (map fst entries) → json.encode (json.GoMap entries) = inl v' →
  ∃ l', v' = json.JObject (map written_member l')
        ∧ NoDup (map fst l')
        ∧ ∀ k, (inl <$> json.map_get k l' : option (json.value + error))
               = json.encode <$> json.map_get k entries.
Proof.
  intros Hnd. rewrite encode_map_unfold.
  destruct (json.members_of _) as [ms|e] eqn:E; [|done]. intros [= <-].
  destruct (members_of_inv _ _ E) as (l' & Hl & ->).
  exists l'. split; [reflexivity|].
  assert (NoDup (map fst (map (fun e : string * json.any =>
                                 (fst e, json.encode (snd e))) entries))) as Hnd'.
  { by rewrite map_map. }
  assert (map fst l' =
          map fst (map (fun p : string * json.value =>
                          (fst p, @inl json.value error (snd p))) l')) as Hfst.
  { by rewrite map_map. }
  split.
  - rewrite Hfst, <- Hl, merge_sort_Permutation. exact Hnd'.
  - intros k.
    rewrite <- (map_get_map (@inl json.value error)), <- Hl, <- map_get_map.
    symmetry. apply map_get_perm; [exact Hnd'|].
    symmetry. apply merge_sort_Permutation.
Qed.

(** *** What the handler finds in the client's result *)

(** Down a path of names in ASCII, the search in the re-encoded value
    ends at what the decoder stored for the last member of each name. *)
Lemma searchKeys_encoded v :
  ∀ ks v',
    json.range_error v = None → forallb is_ascii ks = true →
    json.encode (json.decode v) = inl v' →
    found_string (jsonparser.searchKeys ks v') = decoded_string (path_last ks v)
    ∧ found_float (jsonparser.searchKeys ks v') = decoded_float (path_last ks v).
Proof.
  induction v as [|b|lit f|l|items IH|ms IH] using value_ind'; intros ks v' Hr Hks He.
  - injection He as <-. by destruct ks.
  - injection He as <-. by destruct ks.
  - simpl in Hr, He. destruct (json.in_range f) eqn:Hf; [|done].
    destruct f; try done; injection He as <-; destruct ks; done.
  - injection He as <-. by destruct ks.
  - simpl in He. destruct (json.items_of _); [|done]. injection He as <-.
    by destruct ks.
  - rewrite decode_object in He.
    apply encode_map_inv in He as (l' & -> & Hnd & Hget);
      [|apply NoDup_assign, NoDup_nil_2].
    destruct ks as [|k ks]; [done|].
    simpl in Hks. apply andb_prop in Hks as [Hk Hks].
    rewrite searchKeys_object, scan_written by done.
    specialize (Hget k). rewrite map_get_assign in Hget. simpl.
    destruct (last_member k ms) as [x|] eqn:Hlast.
    + destruct (json.map_get k l') as [x'|]; [|done].
      injection Hget as Hx.
      pose proof (last_member_elem_of _ _ _ Hlast) as Hin.
      apply list_elem_of_fmap in Hin as (m & -> & Hin).
      rewrite Forall_forall in IH. apply (IH m Hin); [|done|done].
      apply range_error_members in Hr. rewrite Forall_forall in Hr.
      by apply Hr.
    + by destruct (json.map_get k l').
Qed.

(** *** What jsonparser finds in the body *)

Lemma last_member_None k ms : k ∉ map name_of ms → last_member k ms = None.
Proof.
  induction ms as [|m r IH]; [done|]. simpl. intros H.
  apply not_elem_of_cons in H as [Hne H]. rewrite IH by done.
  destruct (String.eqb_spec (name_of m) k); [congruence|reflexivity].
Qed.

Lemma last_member_inv k ms x :
  last_member k ms = Some x → ∃ m, m ∈ ms ∧ name_of m = k ∧ snd m = x.
Proof.
  induction ms as [|m r IH]; [done|]. simpl.
  destruct (last_member k r) as [y|].
  - intros [= ->]. destruct (IH eq_refl) as (m' & ? & ? & ?).
    exists m'. split; [by right|done].
  - destruct (String.eqb_spec (name_of m) k); [|done]. intros [= <-].
    exists m. split; [left|done].
Qed.

(** Among members of distinct names that both readers read alike, the
    scan finds the one of the name. *)
Lemma scan_unique k ks ms :
  forallb (fun m => read_alike (fst m)) ms = true → NoDup (map name_of ms) →
  scan k ks ms =
  match last_member k ms with
  | Some x => jsonparser.searchKeys ks x
  | None => jsonparser.NotFound
  end.
Proof.
  induction ms as [|[n v] r IH]; intros Ha Hnd; [reflexivity|].
  simpl in Ha. apply andb_prop in Ha as [Hn Ha].
  apply NoDup_cons in Hnd as [Hnot Hnd].
  unfold read_alike in Hn. apply andb_prop in Hn as [Hn _].
  apply bool_decide_eq_true in Hn. simpl in Hn.
  rewrite scan_cons, Hn, IH by done.
  change (last_member k ((n, v) :: r)) with
    (match last_member k r with
     | Some x => Some x
     | None => if String.eqb (json.unquoted n) k then Some v else None
     end).
  destruct (String.eqb_spec (json.unquoted n) k) as [<-|Hne].
  - rewrite last_member_None by exact Hnot.
    by destruct (jsonparser.searchKeys ks v).
  - by destruct (last_member k r).
Qed.

(** Down a path without repeated names on which both readers read alike,
    jsonparser finds in the body what the decoder stores. *)
Lemma searchKeys_body str ks :
  ∀ v, unique_along ks v = true → alike_along str ks v = true →
       (str = true →
        found_string (jsonparser.searchKeys ks v) = decoded_string (path_last ks v))
       ∧ found_float (jsonparser.searchKeys ks v) = decoded_float (path_last ks v).
Proof.
  induction ks as [|k ks IH]; intros v Hu Ha.
  - destruct v as [|b|lit f|l|items|ms]; try done.
    split; [|done]. intros ->.
    simpl in Ha. unfold read_alike in Ha. apply andb_prop in Ha as [H1 H2].
    apply bool_decide_eq_true in H1. apply String.eqb_eq in H2.
    simpl. rewrite H1, H2. done.
  - destruct v as [|b|lit f|l|items|ms]; try done.
    simpl in Hu, Ha. apply andb_prop in Hu as [Hnd Hu].
    apply bool_decide_eq_true in Hnd.
    rewrite searchKeys_object, scan_unique; [|
      apply forallb_forall; intros m Hm; rewrite forallb_forall in Ha;
      specialize (Ha m Hm); by apply andb_prop in Ha as [? _] | exact Hnd].
    simpl. destruct (last_member k ms) as [x|] eqn:Hlast; [|done].
    apply last_member_inv in Hlast as (m & Hin & Hname & <-).
    apply list_elem_of_In in Hin.
    rewrite forallb_forall in Hu, Ha.
    specialize (Hu m Hin). specialize (Ha m Hin). simpl in Hu, Ha.
    apply andb_prop in Ha as [_ Ha].
    rewrite Hname, String.eqb_refl in Hu, Ha. by apply IH.
Qed.

(** *** The three values *)

Lemma GetString_found v ks :
  fst (jsonparser.GetString (json.Wellformed v) ks)
  = found_string (jsonparser.searchKeys ks v).
Proof.
  unfold jsonparser.GetString, jsonparser.Get.
  destruct (jsonparser.searchKeys ks v) as [[|b|lit f|l|items|ms]| |]; try reflexivity.
  simpl. by destruct (json.unescaped l).
Qed.

Lemma GetFloat_found v ks :
  fst (jsonparser.GetFloat (json.Wellformed v) ks)
  = found_float (jsonparser.searchKeys ks v).
Proof.
  unfold jsonparser.GetFloat, jsonparser.Get.
  destruct (jsonparser.searchKeys ks v) as [[|b|lit f|l|items|ms]| |]; try reflexivity.
  simpl. by destruct (json.in_range f).
Qed.

(** A body that is an object and decodes: what the client returns. *)
Lemma reencoded_decodes ms :
  decodes (json.Wellformed (json.JObject ms)) →
  json.range_error (json.JObject ms) = None
  ∧ ∃ v', json.encode (json.decode (json.JObject ms)) = inl v'
          ∧ reencoded (json.Wellformed (json.JObject ms)) = json.Wellformed v'.
Proof.
  unfold decodes, reencoded, json.Unmarshal.
  destruct (json.depth_error (json.JObject ms)); [done|].
  rewrite decode_object. unfold snd at 1. intros Hr. split; [exact Hr|].
  destruct (encode_decode (json.JObject ms) Hr) as [v' Hv']. exists v'.
  split; [exact Hv'|]. rewrite decode_object in Hv'.
  unfold fst at 2, json.Marshal_map. by rewrite Hv'.
Qed.

(** The three values the handler extracts from the client's result, read
    off the body: at every object the last member of the name counts. *)
Lemma extract_reencoded_last members :
  let v := json.JObject members in
  decodes (json.Wellformed v) →
  extract (reencoded (json.Wellformed v)) = decoded_values v.
Proof.
  intros v Hd. subst v. unfold decoded_values.
  destruct (reencoded_decodes members Hd) as (Hr & v' & He & ->).
  unfold extract. rewrite !GetString_found, GetFloat_found.
  destruct (searchKeys_encoded _ ["location"; "name"] v' Hr eq_refl He) as [-> _].
  destruct (searchKeys_encoded _ ["current"; "temp_c"] v' Hr eq_refl He) as [_ ->].
  destruct (searchKeys_encoded _ ["current"; "condition"; "text"] v' Hr eq_refl He)
    as [-> _].
  reflexivity.
Qed.

(** The three values jsonparser finds in the body itself. *)
Lemma extract_body v :
  unique_on_paths v = true → alike_on_paths v = true →
  extract (json.Wellformed v) = decoded_values v.
Proof.
  unfold unique_on_paths, alike_on_paths, decoded_values. intros Hu Ha.
  apply andb_prop in Hu as [Hu U3]. apply andb_prop in Hu as [U1 U2].
  apply andb_prop in Ha as [Ha A3]. apply andb_prop in Ha as [A1 A2].
  unfold extract. rewrite !GetString_found, GetFloat_found.
  destruct (searchKeys_body _ _ v U1 A1) as [H1 _].
  destruct (searchKeys_body _ _ v U2 A2) as [_ H2].
  destruct (searchKeys_body _ _ v U3 A3) as [H3 _].
  by rewrite (H1 eq_refl), H2, (H3 eq_refl).
Qed.

Lemma extract_reencoded members :
  let v := json.JObject members in
  decodes (json.Wellformed v) →
  unique_on_paths v = true → alike_on_paths v = true →
  extract (reencoded (json.Wellformed v)) = extract (json.Wellformed v).
Proof.
  intros v Hd Hu Ha. subst v.
  by rewrite (extract_reencoded_last members Hd), extract_body.
Qed.

Lemma message_of_extract data :
  message_of data =
  rendered_message (fst (fst (extract data)))
    (strconv.FormatFloat_g (snd (fst (extract data)))) (snd (extract data)).
Proof. unfold message_of. by rewrite Sprintf_responseFormat. Qed.

Lemma envelope_rendered name temp condition :
  json.escape (String.length (rendered_message name temp condition))
    (rendered_message name temp condition) = rendered_message name temp condition →
  envelope (rendered_message name temp condition) = rendered_envelope name temp condition.
Proof.
  intros H. unfold envelope, rendered_envelope, Marshal, fst, json.quote.
  cbn [ResponseType Text]. rewrite H.
  rewrite !append_assoc. reflexivity.
Qed.

End Reencoding.

(** ** The claims on the provider's body *)

Section Bodies.

Lemma client_result_decodes body :
  decodes body → client_result (Body body) = (reencoded body, None).
Proof.
  unfold decodes, client_result, reencoded.
  destruct (json.Unmarshal body) as [result [e|]]; [done|reflexivity].
Qed.

(** The reply to a body that decodes: always status 200. *)
Lemma weatherHandler_decoded os req w body :
  decodes body →
  ∃ reply,
    fst (weatherHandler (answering body os) (http.fresh None) req w) = Return reply
    ∧ http.status reply = Some 200
    ∧ http.Header reply !! "Content-Type" = Some "application/json"
    ∧ http.written reply = envelope (message_of (reencoded body)).
Proof.
  intros Hd.
  apply (weatherHandler_success (answering body os) req w (reencoded body)).
  by apply client_result_decodes.
Qed.

Lemma decodes_empty_object : decodes (json.Wellformed (json.JObject [])).
Proof. reflexivity. Qed.

Lemma decodes_null : decodes (json.Wellformed json.JNull).
Proof. reflexivity. Qed.

End Bodies.

(** C2 (the code departs from it).  For a body that decodes as an object
    and holds Paris, 21.5 and Sunny at the three paths, as the decoder
    reads it, the handler writes status 200, the JSON content type and
    the envelope whose text is [Current weather in Paris: 21.5], the
    bytes C3 82 C2 B0 and [C - Sunny]: two bytes more than the body the
    specification states. *)
Theorem C2_paris_reply os req w members :
  decodes (json.Wellformed (json.JObject members)) →
  decoded_values (json.JObject members) = ("Paris", temp_21_5, "Sunny") →
  ∃ reply,
    fst (weatherHandler (answering (json.Wellformed (json.JObject members)) os)
           (http.fresh None) req w) = Return reply
    ∧ http.status reply = Some 200
    ∧ http.Header reply !! "Content-Type" = Some "application/json"
    ∧ http.written reply =
        "{" +:+ dq +:+ "response_type" +:+ dq +:+ ":" +:+ dq +:+ "in_channel" +:+ dq
            +:+ "," +:+ dq +:+ "text" +:+ dq +:+ ":" +:+ dq
            +:+ "Current weather in Paris: 21.5" +:+ bytes [195; 130; 194; 176]%N
            +:+ "C - Sunny" +:+ dq +:+ "}"
    ∧ http.written reply ≠ claimed_envelope "Paris" "21.5" "Sunny".
Proof.
  intros Hd He.
  destruct (weatherHandler_decoded os req w _ Hd) as (reply & Hr & Hs & Hc & Hw).
  exists reply. split; [exact Hr|]. split; [exact Hs|]. split; [exact Hc|].
  rewrite Hw, message_of_extract, (extract_reencoded_last members Hd), He.
  split; [vm_compute; reflexivity|]. vm_compute. discriminate.
Qed.

Lemma C2_witness :
  ∃ reply,
    fst (weatherHandler (answering (json.Wellformed paris) bare)
           (http.fresh None) plain_request boot) = Return reply
    ∧ http.status reply = Some 200
    ∧ http.written reply ≠ claimed_envelope "Paris" "21.5" "Sunny".
Proof.
  destruct (C2_paris_reply bare plain_request boot paris_members)
    as (reply & H1 & H2 & _ & _ & H5).
  - reflexivity.
  - reflexivity.
  - exists reply. split; [exact H1|]. split; [exact H2|exact H5].
Defined.

(** Without repeated names on the three paths and with names and strings
    there that both readers read alike, the three values of a body as
    the decoder reads it are those that jsonparser finds in the body. *)
Lemma decoded_values_extract members :
  unique_on_paths (json.JObject members) = true →
  alike_on_paths (json.JObject members) = true →
  decoded_values (json.JObject members)
  = extract (json.Wellformed (json.JObject members)).
Proof. intros Hu Ha. by rewrite extract_body. Qed.

(** C5 (the code departs from it).  For the body [{}] the handler writes
    status 200 and the envelope whose text is [Current weather in : 0],
    the bytes C3 82 C2 B0 and [C - ]: the zero values are used, and the
    text is two bytes longer than the message the specification states. *)
Theorem C5_empty_object_reply os req w :
  ∃ reply,
    fst (weatherHandler (answering (json.Wellformed (json.JObject [])) os)
           (http.fresh None) req w) = Return reply
    ∧ http.status reply = Some 200
    ∧ http.Header reply !! "Content-Type" = Some "application/json"
    ∧ extract (reencoded (json.Wellformed (json.JObject []))) = ("", strconv.zero, "")
    ∧ http.written reply =
        "{" +:+ dq +:+ "response_type" +:+ dq +:+ ":" +:+ dq +:+ "in_channel" +:+ dq
            +:+ "," +:+ dq +:+ "text" +:+ dq +:+ ":" +:+ dq
            +:+ "Current weather in : 0" +:+ bytes [195; 130; 194; 176]%N
            +:+ "C - " +:+ dq +:+ "}"
    ∧ http.written reply ≠ claimed_envelope "" "0" "".
Proof.
  destruct (weatherHandler_decoded os req w _ decodes_empty_object)
    as (reply & Hr & Hs & Hc & Hw).
  exists reply. split; [exact Hr|]. split; [exact Hs|]. split; [exact Hc|].
  split; [reflexivity|]. rewrite Hw.
  split; [vm_compute; reflexivity|]. vm_compute. discriminate.
Qed.

(** C9, counterexample.  A body that names [location] twice decodes;
    jsonparser reads the first on the body, the decoder keeps the last,
    so the name extracted from the client's result is London where the
    body gives Paris. *)
Lemma C9_counterexample_repeated_name :
  decodes (json.Wellformed twice_located)
  ∧ extract (json.Wellformed twice_located) = ("Paris", strconv.zero, "")
  ∧ extract (reencoded (json.Wellformed twice_located)) = ("London", strconv.zero, "")
  ∧ ¬ C9_claim twice_located_members.
Proof.
  split; [reflexivity|]. split; [reflexivity|]. split; [reflexivity|].
  intros H. destruct H as [H _]; [reflexivity|]. vm_compute in H. discriminate H.
Qed.

(** Where the two readers differ, so do the values: a name in bytes that
    are no UTF-8 comes back as U+FFFD, and a name that jsonparser cannot
    read, empty on the body, comes back as U+FFFD as well. *)
Example reencoding_replaces_what_is_no_UTF8 :
  decodes (json.Wellformed (json.JObject invalid_name_members))
  ∧ unique_on_paths (json.JObject invalid_name_members) = true
  ∧ extract (json.Wellformed (json.JObject invalid_name_members))
    = (bytes [255]%N, strconv.zero, "")
  ∧ extract (reencoded (json.Wellformed (json.JObject invalid_name_members)))
    = (bytes [239; 191; 189]%N, strconv.zero, "")
  ∧ extract (json.Wellformed (json.JObject unpaired_name_members))
    = ("", strconv.zero, "")
  ∧ extract (reencoded (json.Wellformed (json.JObject unpaired_name_members)))
    = (bytes [239; 191; 189]%N, strconv.zero, "").
Proof. repeat split; reflexivity. Qed.

(** A number out of the range of float64 anywhere in the body: the
    decoder reports it, the client fails and the reply has status 500. *)
Example overflowing_number_is_500 :
  snd (json.Unmarshal (json.Wellformed (json.JObject overflowing_members)))
    = Some (UnmarshalTypeError "number 1e999" "float64")
  ∧ ∃ reply,
      fst (weatherHandler
             (answering (json.Wellformed (json.JObject overflowing_members)) bare)
             (http.fresh None) plain_request boot) = Return reply
      ∧ http.status reply = Some 500
      ∧ http.written reply
        = "json: cannot unmarshal number 1e999 into Go value of type float64" +:+ nl.
Proof.
  split; [reflexivity|]. eexists. split; [reflexivity|]. split; reflexivity.
Qed.

(** C9, amended.  For a body that decodes as an object in which, on the
    three paths, no object repeats a member name and both readers read
    alike every member name and the string at the end of the path, the
    values extracted from the client's result are those extracted from
    the body, and the rendered message is the same. *)
Theorem C9_reencoding_neutral_where_readers_agree members :
  decodes (json.Wellformed (json.JObject members)) →
  unique_on_paths (json.JObject members) = true →
  alike_on_paths (json.JObject members) = true →
  let body := json.Wellformed (json.JObject members) in
  extract (reencoded body) = extract body
  ∧ message_of (reencoded body) = message_of body.
Proof.
  intros Hd Hu Ha body. subst body.
  split; [by apply extract_reencoded|].
  by rewrite !message_of_extract, (extract_reencoded members Hd Hu Ha).
Qed.

Lemma C9_witness :
  decodes (json.Wellformed paris)
  ∧ unique_on_paths paris = true
  ∧ alike_on_paths paris = true
  ∧ extract (reencoded (json.Wellformed paris)) = extract (json.Wellformed paris).
Proof.
  split; [reflexivity|]. split; [reflexivity|]. split; [reflexivity|].
  apply (C9_reencoding_neutral_where_readers_agree paris_members); reflexivity.
Defined.

(** C10, counterexample.  The body [null] is JSON and no object, and it
    is answered with status 200. *)
Lemma C10_counterexample_null :
  (∃ reply,
     fst (weatherHandler (answering (json.Wellformed json.JNull) bare)
            (http.fresh None) plain_request boot) = Return reply
     ∧ http.status reply = Some 200)
  ∧ ¬ C10_claim json.JNull bare plain_request boot.
Proof.
  split.
  - eexists. split; reflexivity.
  - intros H. destruct H as (reply & Hr & Hs); [discriminate|].
    vm_compute in Hr. injection Hr as <-. discriminate Hs.
Qed.

(** C10, amended.  For a body that is an array, a string, a number or a
    boolean the client returns an error and the handler answers with
    status 500 and the text of that error: an [UnmarshalTypeError] that
    names the kind of the value, or the [SyntaxError] of the scanner for
    an array that nests deeper than [json.maxNestingDepth].  For the body [null]
    the client returns [null] without an error and the handler answers
    with status 200, the JSON content type and the envelope of the
    message rendered from the zero values. *)
Theorem C10_non_object_is_500_null_is_200 v os req w :
  (∀ members, v ≠ json.JObject members) →
  ∃ reply,
    fst (weatherHandler (answering (json.Wellformed v) os) (http.fresh None) req w)
      = Return reply
    ∧ match v with
      | json.JNull =>
          fst (callWeatherAPI (answering (json.Wellformed v) os) (location_of req) w)
            = Return (json.Wellformed json.JNull, None)
          ∧ http.status reply = Some 200
          ∧ http.Header reply !! "Content-Type" = Some "application/json"
          ∧ http.written reply =
              "{" +:+ dq +:+ "response_type" +:+ dq +:+ ":" +:+ dq +:+ "in_channel" +:+ dq
                  +:+ "," +:+ dq +:+ "text" +:+ dq +:+ ":" +:+ dq
                  +:+ "Current weather in : 0" +:+ bytes [195; 130; 194; 176]%N
                  +:+ "C - " +:+ dq +:+ "}"
      | _ =>
          let err :=
            match json.depth_error v with
            | Some err => err
            | None => UnmarshalTypeError (json.kind v) "map[string]interface {}"
            end in
          fst (callWeatherAPI (answering (json.Wellformed v) os) (location_of req) w)
            = Return (json.empty, Some err)
          ∧ http.status reply = Some 500
          ∧ http.Header reply !! "Content-Type" = Some "text/plain; charset=utf-8"
          ∧ http.written reply = Error err +:+ nl
      end.
Proof.
  intros Ho. rewrite weatherHandler_run, callWeatherAPI_value.
  change (fetch (answering (json.Wellformed v) os) _) with (Body (json.Wellformed v)).
  destruct v as [| b | lit f | l | items | members].
  - eexists. split; [reflexivity|]. split; [reflexivity|]. split; [reflexivity|].
    split; [reflexivity|]. vm_compute. reflexivity.
  - eexists. split; [reflexivity|]. repeat split; reflexivity.
  - eexists. split; [reflexivity|]. repeat split; reflexivity.
  - eexists. split; [reflexivity|]. repeat split; reflexivity.
  - unfold client_result, json.Unmarshal.
    destruct (json.depth_error (json.JArray items));
      (eexists; split; [reflexivity|]; repeat split; reflexivity).
  - by destruct (Ho members).
Qed.

Lemma C10_witness :
  ∃ reply,
    fst (weatherHandler (answering (json.Wellformed (json.JArray [])) bare)
           (http.fresh None) plain_request boot) = Return reply
    ∧ http.status reply = Some 500
    ∧ http.written reply
      = "json: cannot unmarshal array into Go value of type map[string]interface {}"
          +:+ nl.
Proof.
  destruct (C10_non_object_is_500_null_is_200 (json.JArray []) bare plain_request boot)
    as (reply & H1 & _ & H2 & _ & H3).
  - discriminate.
  - exists reply. split; [exact H1|]. split; [exact H2|exact H3].
Defined.


(** ** Start-up *)

Section Startup.

Lemma main_unfold os flags :
  main os flags =
    (modify (set_debugMode (debugFlag flags));;
     apiToken ← key_phase os flags;
     if decide (apiToken = "") then
       LogMessage errorLevel "Failed to locate API key!";;
       os_Exit 2
     else
       modify (set_weatherAPIKey apiToken);;
       listenPort ← port_phase os flags;
       LogMessage infoLevel ("Starting server on port " +:+ listenPort);;
       let listenPortString := fmt.Sprintf ":%s" [fmt.Str listenPort] in
       DebugPrint ("Listen port string: " +:+ listenPortString);;
       err ← ListenAndServe os listenPortString;
       panic err).
Proof. reflexivity. Qed.

(** The resolution of the key: its value or the panic, and viper's
    settings afterwards. *)
Lemma key_phase_run os flags w :
  viper_settings w = ∅ →
  ∃ w',
    key_phase os flags w =
      (match amended_apiKey os flags with
       | inl key => Return key
       | inr err => Panic (WrapError "fatal error processing config file: " err)
       end, w')
    ∧ viper_settings w' = default ∅ (file_was_read os flags).
Proof.
  intros Hv. unfold key_phase, amended_apiKey, file_was_read.
  destruct (decide (apiToken flags = "")) as [Hf|Hf].
  - destruct (environ os !! "WEATHER_API_TOKEN") as [value|].
    + step. eexists. split; [reflexivity|]. by autorewrite with world.
    + step. unfold mbind at 1, Go_bind at 1. rewrite ReadInConfig_run. simpl.
      destruct (config_files os (configFile flags)) as [settings|err].
      * step. step. eexists. split; [reflexivity|]. by autorewrite with world.
      * eexists. split; [reflexivity|]. done.
  - step. eexists. split; [reflexivity|]. by autorewrite with world.
Qed.

(** The resolution of the port. *)
Lemma port_phase_run os flags w :
  viper_settings w = default ∅ (file_was_read os flags) →
  ∃ w', port_phase os flags w = (Return (actual_port os flags), w')
        ∧ weatherAPIKey w' = weatherAPIKey w.
Proof.
  intros Hv. unfold actual_port, port_phase.
  destruct (decide (listenPort flags = "")) as [Hf|Hf].
  - destruct (environ os !! "MM_LISTEN_PORT") as [value|].
    + step. eexists. split; [reflexivity|]. by autorewrite with world.
    + step. rewrite Hv. change (viper.ToLower "listenPort") with "listenport".
      destruct (decide (default "" (default ∅ (file_was_read os flags) !! "listenport") = ""));
        step; eexists; (split; [reflexivity|]); by autorewrite with world.
  - step. eexists. split; [reflexivity|]. by autorewrite with world.
Qed.

Lemma main_tail_run os port w :
  (LogMessage infoLevel ("Starting server on port " +:+ port);;
   let listenPortString := fmt.Sprintf ":%s" [fmt.Str port] in
   DebugPrint ("Listen port string: " +:+ listenPortString);;
   err ← ListenAndServe os listenPortString;
   panic err) w
  = (serve os (":" +:+ port),
     debug_logged ("Listen port string: " +:+ ":" +:+ port)
       (add_logged (log_line infoLevel ("Starting server on port " +:+ port)) w)).
Proof. step. cbv zeta. rewrite Sprintf_port. step. apply listen_run. Qed.

(** [main], run from the start of the process. *)
Lemma main_run os flags :
  ∃ w',
    main os flags boot =
      (match amended_apiKey os flags with
       | inr err => Panic (WrapError "fatal error processing config file: " err)
       | inl key =>
           if decide (key = "") then Exit 2 else serve os (":" +:+ actual_port os flags)
       end, w')
    ∧ match amended_apiKey os flags with
      | inl key => key ≠ "" → weatherAPIKey w' = key
      | inr _ => True
      end.
Proof.
  destruct (key_phase_run os flags (set_debugMode (debugFlag flags) boot) eq_refl)
    as (w1 & Hk & Hv).
  rewrite main_unfold. step.
  destruct (amended_apiKey os flags) as [key|err].
  - erewrite bind_run by exact Hk.
    destruct (decide (key = "")) as [He|He].
    + step. eexists. split; [reflexivity|done].
    + step.
      destruct (port_phase_run os flags (set_weatherAPIKey key w1) Hv) as (w2 & Hp & Hw).
      erewrite bind_run by exact Hp. rewrite main_tail_run.
      eexists. split; [reflexivity|].
      intros _. by autorewrite with world.
  - unfold mbind at 1, Go_bind at 1. rewrite Hk. eexists. split; [reflexivity|done].
Qed.

End Startup.

(** C6, counterexample.  With no flag, [WEATHER_API_TOKEN] set to the
    empty string and a file whose [apiKey] is [secret], the first
    non-empty value is [secret], and the process exits with status 2. *)
Lemma C6_counterexample_empty_variable :
  first_nonempty
    [apiToken no_flags;
     default "" (environ empty_variables !! "WEATHER_API_TOKEN");
     file_setting empty_variables no_flags "apikey"] = Some "secret"
  ∧ fst (main empty_variables no_flags boot) = Exit 2
  ∧ ¬ C6_claim empty_variables no_flags.
Proof.
  split; [reflexivity|]. split; [reflexivity|].
  unfold C6_claim. intros [_ [addr H]]. vm_compute in H. discriminate H.
Qed.

(** C6, amended.  The key is the [-token] flag when that is not empty;
    else the value of [WEATHER_API_TOKEN] when the variable is set, even
    to the empty string; else the [apiKey] entry of the configuration
    file, and the process panics when that file cannot be read.  When the
    key so found is empty the process exits with status 2 and never
    listens; otherwise it is the key the process keeps, and the process
    goes on to listen. *)
Theorem C6_key_resolution os flags :
  match amended_apiKey os flags with
  | inr err =>
      fst (main os flags boot)
      = Panic (WrapError "fatal error processing config file: " err)
  | inl key =>
      if decide (key = "") then fst (main os flags boot) = Exit 2
      else weatherAPIKey (snd (main os flags boot)) = key
           ∧ ∃ addr, fst (main os flags boot) = serve os addr
  end.
Proof.
  destruct (main_run os flags) as (w' & -> & Hk).
  destruct (amended_apiKey os flags) as [key|err]; [|reflexivity].
  destruct (decide (key = "")); [reflexivity|].
  split; [by apply Hk|by eexists].
Qed.

(** C7, counterexample.  With [-token secret], [MM_LISTEN_PORT] set to
    the empty string and a file whose [listenPort] is 9000, the first
    non-empty value is 9000, and the process listens on [:], the empty
    port. *)
Lemma C7_counterexample_empty_variable :
  fst (main empty_variables token_flag boot) = Serving ":"
  ∧ ¬ C7_claim empty_variables token_flag.
Proof.
  split; [reflexivity|].
  unfold C7_claim. intros H. destruct H as (port & Hp & Hs).
  - exists ":". reflexivity.
  - vm_compute in Hp. injection Hp as <-. vm_compute in Hs. discriminate Hs.
Qed.

(** C7, amended.  Once the key is resolved to a non-empty value the
    process always goes on to listen, whatever the port sources hold; and
    the port is the [-port] flag when that is not empty; else the value
    of [MM_LISTEN_PORT] when the variable is set, even to the empty
    string; else, when the configuration file was read for the key, its
    [listenPort] entry, and 8080 when that entry is empty. *)
Theorem C7_port_resolution os flags key :
  amended_apiKey os flags = inl key → key ≠ "" →
  (∃ addr, fst (main os flags boot) = serve os addr)
  ∧ ∀ port, amended_listenPort os flags = Some port →
            fst (main os flags boot) = serve os (":" +:+ port).
Proof.
  intros Hk Hne.
  destruct (main_run os flags) as (w' & -> & _).
  rewrite Hk. destruct (decide (key = "")); [done|]. simpl.
  split; [by eexists|]. intros port Hp. f_equal. f_equal.
  unfold amended_listenPort in Hp. unfold actual_port.
  destruct (decide (listenPort flags = "")); [|by injection Hp].
  destruct (environ os !! "MM_LISTEN_PORT"); [by injection Hp|].
  destruct (file_was_read os flags); [by injection Hp|discriminate].
Qed.

Lemma C7_witness :
  amended_listenPort file_only no_flags = Some "9000"
  ∧ fst (main file_only no_flags boot) = Serving ":9000".
Proof.
  split; [reflexivity|].
  apply (C7_port_resolution file_only no_flags "secret");
    [reflexivity | discriminate | reflexivity].
Defined.

(** ** Further properties of the code *)

Section Quiet.

Lemma broken_WriteHeader rw code : http.broken (http.WriteHeader rw code) = http.broken rw.
Proof. unfold http.WriteHeader. by destruct (http.status rw). Qed.

Lemma Write_error rw data : snd (http.Write rw data) = http.broken rw.
Proof.
  unfold http.Write. cbv zeta.
  destruct (http.broken (http.WriteHeader rw http.StatusOK)) eqn:E;
    rewrite broken_WriteHeader in E; by rewrite E.
Qed.

Lemma debug_logged_quiet m w : debugMode w = false → debug_logged m w = w.
Proof. unfold debug_logged. by intros ->. Qed.

Lemma logged_client_logged_quiet r w :
  debugMode w = false →
  logged (client_logged r w) = (logged w ++ client_error_lines r)%list.
Proof.
  intros Hd. destruct r as [e|e|b]; simpl; try reflexivity.
  destruct (json.Unmarshal b) as [res [e|]]; simpl; [reflexivity|].
  by rewrite debug_logged_quiet, app_nil_r.
Qed.

Lemma logged_after_call_quiet os req w :
  debugMode w = false →
  logged (after_call os req w) =
  (logged w ++ log_line infoLevel "Received inbound request"
     :: client_error_lines (fetch os (request_url (weatherAPIKey w) (location_of req))))%list.
Proof.
  intros Hd. unfold after_call, before_call.
  rewrite !(debug_logged_quiet _ (add_logged _ w)) by exact Hd.
  rewrite logged_client_logged_quiet by exact Hd. simpl.
  by rewrite <- app_assoc.
Qed.

(** The handler changes nothing of the world but the log and the list of
    requests. *)
Lemma frame_after_call os req w :
  weatherAPIKey (after_call os req w) = weatherAPIKey w
  ∧ debugMode (after_call os req w) = debugMode w
  ∧ viper_settings (after_call os req w) = viper_settings w.
Proof.
  unfold after_call, before_call, client_logged.
  destruct (fetch os _) as [e|e|b]; simpl; autorewrite with world; simpl;
    autorewrite with world; simpl; try done.
  destruct (json.Unmarshal b) as [res [e|]]; simpl; autorewrite with world; simpl;
    autorewrite with world; simpl; done.
Qed.

Lemma client_fails_iff r err : client_fails r err ↔ snd (client_result r) = Some err.
Proof.
  split; [intros H; by rewrite (client_result_fails r err H)|].
  destruct r as [e|e|b]; simpl.
  - intros [= ->]. by left.
  - intros [= ->]. right. by left.
  - intros H. right. right. exists b. split; [reflexivity|].
    by destruct (json.Unmarshal b) as [res [e|]].
Qed.

Lemma key_phase_quiet os flags w :
  debugMode w = false →
  ∃ o w', key_phase os flags w = (o, w')
          ∧ logged w' = logged w ∧ debugMode w' = false.
Proof.
  intros Hd. unfold key_phase.
  destruct (decide (apiToken flags = "")) as [Hf|Hf].
  - destruct (environ os !! "WEATHER_API_TOKEN") as [value|].
    + step. rewrite debug_logged_quiet by done. by eexists _, _.
    + step. unfold mbind at 1, Go_bind at 1. rewrite ReadInConfig_run. simpl.
      destruct (config_files os (configFile flags)) as [settings|err].
      * step. step. rewrite debug_logged_quiet by done. by eexists _, _.
      * by eexists _, _.
  - step. rewrite debug_logged_quiet by done. by eexists _, _.
Qed.

Lemma port_phase_quiet os flags w :
  debugMode w = false →
  ∃ o w', port_phase os flags w = (o, w')
          ∧ logged w' = logged w ∧ debugMode w' = false.
Proof.
  intros Hd. unfold port_phase.
  destruct (decide (listenPort flags = "")) as [Hf|Hf].
  - destruct (environ os !! "MM_LISTEN_PORT") as [value|].
    + step. rewrite debug_logged_quiet by done. by eexists _, _.
    + step. destruct (decide (_ = ""));
        step; rewrite debug_logged_quiet by done; by eexists _, _.
  - step. rewrite debug_logged_quiet by done. by eexists _, _.
Qed.

(** Without [-debug], what [main] has logged when it ends. *)
Lemma main_logged_quiet os flags :
  debugFlag flags = false →
  logged (snd (main os flags boot)) =
  match amended_apiKey os flags with
  | inr _ => []
  | inl key =>
      if decide (key = "") then [log_line errorLevel "Failed to locate API key!"]
      else [log_line infoLevel ("Starting server on port " +:+ actual_port os flags)]
  end.
Proof.
  intros Hd.
  destruct (key_phase_run os flags (set_debugMode (debugFlag flags) boot) eq_refl)
    as (w1 & Hk & Hv).
  destruct (key_phase_quiet os flags (set_debugMode (debugFlag flags) boot) Hd)
    as (o1 & w1' & Hk' & Hl1 & Hd1).
  rewrite Hk in Hk'. injection Hk' as _ <-. simpl in Hl1.
  rewrite main_unfold. step.
  destruct (amended_apiKey os flags) as [key|err].
  - erewrite bind_run by exact Hk.
    destruct (decide (key = "")) as [He|He].
    + step. simpl. by rewrite Hl1.
    + step.
      destruct (port_phase_run os flags (set_weatherAPIKey key w1) Hv) as (w2 & Hp & Hw).
      destruct (port_phase_quiet os flags (set_weatherAPIKey key w1) Hd1)
        as (o2 & w2' & Hp' & Hl2 & Hd2).
      rewrite Hp in Hp'. injection Hp' as _ <-. simpl in Hl2.
      erewrite bind_run by exact Hp. rewrite main_tail_run. simpl.
      rewrite debug_logged_quiet by exact Hd2. simpl. by rewrite Hl2, Hl1.
  - unfold mbind at 1, Go_bind at 1. rewrite Hk. simpl. exact Hl1.
Qed.

End Quiet.

(** X1.  Whatever members a body has that decodes as an object, the
    request succeeds with status 200 and the JSON content type, and the
    message is rendered from the values at the three paths of the body as
    the decoder reads it, where at every object the last member of the
    name counts; a path that leads to no string gives the empty string, a
    path that leads to no number gives zero. *)
Theorem X1_object_body_reply os req w members :
  decodes (json.Wellformed (json.JObject members)) →
  let v := json.JObject members in
  ∃ reply,
    fst (weatherHandler (answering (json.Wellformed v) os) (http.fresh None) req w)
      = Return reply
    ∧ http.status reply = Some 200
    ∧ http.Header reply !! "Content-Type" = Some "application/json"
    ∧ http.written reply =
        envelope
          (rendered_message
             (decoded_string (path_last ["location"; "name"] v))
             (strconv.FormatFloat_g (decoded_float (path_last ["current"; "temp_c"] v)))
             (decoded_string (path_last ["current"; "condition"; "text"] v))).
Proof.
  intros Hd v.
  destruct (weatherHandler_decoded os req w _ Hd) as (reply & Hr & Hs & Hc & Hw).
  exists reply. split; [exact Hr|]. split; [exact Hs|]. split; [exact Hc|].
  rewrite Hw, message_of_extract, (extract_reencoded_last members Hd).
  unfold decoded_values. cbv zeta. cbn [fst snd]. reflexivity.
Qed.

Lemma X1_witness :
  ∃ reply,
    fst (weatherHandler (answering (json.Wellformed twice_located) bare)
           (http.fresh None) plain_request boot) = Return reply
    ∧ http.written reply = envelope (rendered_message "London" "0" "").
Proof.
  destruct (X1_object_body_reply bare plain_request boot twice_located_members)
    as (reply & H1 & _ & _ & H4).
  - reflexivity.
  - exists reply. split; [exact H1|]. rewrite H4. reflexivity.
Defined.

(** X7.  The handler answers every request, and the status of the reply
    is 500 exactly when the client fails and 200 otherwise. *)
Theorem X7_status_follows_client os req w :
  ∃ reply,
    fst (weatherHandler os (http.fresh None) req w) = Return reply
    ∧ (http.status reply = Some 200 ∨ http.status reply = Some 500)
    ∧ (http.status reply = Some 500
       ↔ ∃ err, client_fails
                  (fetch os (request_url (weatherAPIKey w) (location_of req))) err).
Proof.
  rewrite weatherHandler_run.
  destruct (client_result _) as [apiResponse [err|]] eqn:E.
  - eexists. split; [reflexivity|]. split; [by right|].
    split; [|reflexivity]. intros _. exists err. apply client_fails_iff. by rewrite E.
  - eexists. split; [reflexivity|]. split; [by left|].
    split; [discriminate|]. intros [err H]. apply client_fails_iff in H.
    by rewrite E in H.
Qed.

(** X4.  When the client has left and the write of the reply fails, the
    handler still returns and nothing is written.  For a body that
    decodes, status 200 stands and the last line of the log is the error
    of the write, on stderr.  For a body that does not decode, status 500
    stands and the failed write is not logged: the last line of the log
    is the error line of the client. *)
Theorem X4_failed_write_is_logged os req w body writeErr :
  let run :=
    weatherHandler (answering body os) (http.fresh (Some writeErr)) req w in
  ∃ reply,
    fst run = Return reply
    ∧ http.written reply = ""
    ∧ match snd (json.Unmarshal body) with
      | None =>
          http.status reply = Some 200
          ∧ last (logged (snd run))
            = Some (Stderr,
                    "[ERROR] Error posting response to Mattermost: " +:+ writeErr +:+ nl)
      | Some _ =>
          http.status reply = Some 500
          ∧ last (logged (snd run))
            = Some (Stderr, "[ERROR] Failed to convert body data" +:+ nl)
      end.
Proof.
  intros run. subst run. rewrite weatherHandler_run. unfold after_call.
  change (fetch (answering body os) _) with (Body body).
  unfold client_result, client_logged.
  destruct (json.Unmarshal body) as [result [err|]]; unfold snd at 1.
  - eexists. split; [reflexivity|]. split; [reflexivity|]. split; [reflexivity|].
    simpl. apply last_snoc.
  - eexists. split; [reflexivity|]. split; [reflexivity|]. split; [reflexivity|].
    cbv zeta. unfold snd at 1. simpl. apply last_snoc.
Qed.

(** X5.  Whatever the writer, the handler leaves the key, the debug mode
    and viper's settings as they are and sends exactly one request;
    outside debug mode it logs the line of the inbound request, followed
    only by the error line of a failing client, or by the error line of
    a failing write when the client succeeds. *)
Theorem X5_handler_frame os rw req w :
  let w' := snd (weatherHandler os rw req w) in
  let r := fetch os (request_url (weatherAPIKey w) (location_of req)) in
  weatherAPIKey w' = weatherAPIKey w
  ∧ debugMode w' = debugMode w
  ∧ viper_settings w' = viper_settings w
  ∧ length (requested w') = S (length (requested w))
  ∧ (debugMode w = false →
     logged w' =
       (logged w ++ (Stdout, "[INFO] Received inbound request" +:+ nl)
          :: client_error_lines r ++ write_error_lines r (http.broken rw))%list).
Proof.
  intros w' r. subst w'.
  destruct (frame_after_call os req w) as (Hk & Hd & Hv).
  pose proof (requested_after_call os req w) as Hq.
  pose proof (logged_after_call_quiet os req w) as Hl. fold r in Hl, Hq.
  rewrite weatherHandler_run. fold r. unfold write_error_lines.
  destruct (client_result r) as [t [e|]]; cbn [snd].
  - split; [exact Hk|]. split; [exact Hd|]. split; [exact Hv|].
    split; [rewrite Hq, length_app; simpl; lia|].
    intros Hq'. rewrite (Hl Hq'). simpl. by rewrite app_nil_r.
  - cbv zeta. rewrite Write_error.
    rewrite broken_WriteHeader. cbn [http.broken http.Header_Set].
    destruct (http.broken rw) as [writeErr|].
    + split; [exact Hk|]. split; [exact Hd|]. split; [exact Hv|].
      split; [simpl; rewrite Hq, length_app; simpl; lia|].
      intros Hq'. simpl. rewrite (Hl Hq'), <- app_assoc. reflexivity.
    + split; [exact Hk|]. split; [exact Hd|]. split; [exact Hv|].
      split; [rewrite Hq, length_app; simpl; lia|].
      intros Hq'. rewrite (Hl Hq'). simpl. by rewrite app_nil_r.
Qed.

(** X6.  [url.QueryEscape] as the client uses it: the escaped location
    holds only letters, digits and [-], [_], [.], [~], [+], [%], so none
    of the bytes that end or split a query value, and two locations with
    the same escaped text are the same location. *)
Theorem X6_escaped_location_cannot_split_query location :
  all_bytes query_value_byte (url.QueryEscape location) = true
  ∧ all_bytes (fun c => negb (query_delimiter c)) (url.QueryEscape location) = true
  ∧ ∀ other, url.QueryEscape other = url.QueryEscape location → other = location.
Proof.
  assert (∀ p, (∀ c t, all_bytes p (url.escape_byte c +:+ t) = all_bytes p t ∨ False) →
               all_bytes p (url.QueryEscape location) = true) as Hall.
  { intros p Hp. induction location as [|c s IH]; [reflexivity|].
    change (url.QueryEscape (String c s)) with (url.escape_byte c +:+ url.QueryEscape s).
    destruct (Hp c (url.QueryEscape s)) as [->|[]]. exact IH. }
  split; [|split].
  - apply Hall. intros c t. left.
    destruct c as [[] [] [] [] [] [] [] []]; reflexivity.
  - apply Hall. intros c t. left.
    destruct c as [[] [] [] [] [] [] [] []]; reflexivity.
  - intros other H. apply (f_equal url.QueryUnescape) in H.
    rewrite !QueryUnescape_QueryEscape in H. by injection H.
Qed.

(** X3.  When the key comes from the flag or from the environment, the
    configuration file is never read: with no [-port] flag and
    [MM_LISTEN_PORT] unset the process listens on [:8080], whatever
    [listenPort] the file holds. *)
Theorem X3_file_port_ignored_without_file_key os flags key :
  amended_apiKey os flags = inl key → key ≠ "" →
  file_was_read os flags = None →
  listenPort flags = "" → environ os !! "MM_LISTEN_PORT" = None →
  fst (main os flags boot) = serve os ":8080".
Proof.
  intros Hk Hne Hf Hp He.
  destruct (main_run os flags) as (w' & -> & _).
  rewrite Hk. destruct (decide (key = "")); [done|]. simpl.
  unfold actual_port. rewrite Hp, He, Hf. reflexivity.
Qed.

Lemma X3_witness :
  file_setting key_in_environment no_flags "listenport" = "9000"
  ∧ fst (main key_in_environment no_flags boot) = Serving ":8080".
Proof.
  split; [reflexivity|].
  apply (X3_file_port_ignored_without_file_key key_in_environment no_flags "secret");
    [reflexivity | discriminate | reflexivity | reflexivity | reflexivity].
Defined.

(** X8.  Requests are independent: the reply to a request is the same
    whether or not another request was handled before it. *)
Theorem X8_requests_are_independent os rw1 req1 rw2 req2 w :
  fst (weatherHandler os rw2 req2 (snd (weatherHandler os rw1 req1 w)))
  = fst (weatherHandler os rw2 req2 w).
Proof.
  assert (weatherAPIKey (snd (weatherHandler os rw1 req1 w)) = weatherAPIKey w) as Hk.
  { rewrite weatherHandler_run.
    destruct (frame_after_call os req1 w) as (Hk & _).
    destruct (client_result _) as [t [e|]]; [exact Hk|].
    cbv zeta. unfold snd at 1. by destruct (snd (http.Write _ _)). }
  rewrite (weatherHandler_run os rw2 req2 w).
  rewrite (weatherHandler_run os rw2 req2 (snd (weatherHandler os rw1 req1 w))), Hk.
  destruct (client_result _) as [t [e|]]; reflexivity.
Qed.

(** X9.  [FileExists] answers true exactly for a path that is there and
    is no directory, never together with an error; it returns an error
    exactly when the path cannot be examined for another reason than
    being absent; and it writes to the log, one line on stderr, exactly
    for a directory. *)
Theorem X9_FileExists_contract stat filename w found err w' :
  FileExists stat filename w = (Return (found, err), w') →
  (found = true ↔ stat filename = StatInfo false)
  ∧ (found = true → err = None)
  ∧ (∀ e, err = Some e ↔ stat filename = StatFailed e)
  ∧ (stat filename = StatInfo true →
     logged w' = (logged w ++ [(Stderr, "[ERROR] " +:+ filename +:+ " is a directory!" +:+ nl)])%list)
  ∧ (stat filename ≠ StatInfo true → w' = w).
Proof.
  unfold FileExists.
  destruct (stat filename) as [[|]| |e0].
  - step. intros [= <- <- <-].
    split; [done|]. split; [done|]. split; [done|]. split; [|done].
    intros _. unfold add_logged, log_line. cbn [logged].
    rewrite append_assoc. reflexivity.
  - intros [= <- <- <-]. repeat split; try done.
  - intros [= <- <- <-]. repeat split; try done.
  - intros [= <- <- <-]. repeat split; try done; by intros [= ->].
Qed.

Lemma X9_witness :
  fst (FileExists sample_stat "config.json" boot) = Return (true, None)
  ∧ (true = true ↔ sample_stat "config.json" = StatInfo false).
Proof.
  split; [reflexivity|].
  apply (X9_FileExists_contract sample_stat "config.json" boot true None boot).
  reflexivity.
Defined.

(** X11.  Without [-debug], [main] logs one line at most: nothing when the
    configuration file cannot be read, the error line
    [Failed to locate API key!] when it exits with status 2, and the
    line [Starting server on port P] before it listens on [:P]; when the
    address cannot be bound, the process panics with the error of
    [http.ListenAndServe]. *)
Theorem X11_main_log_and_listener os flags :
  debugFlag flags = false →
  match amended_apiKey os flags with
  | inr err => logged (snd (main os flags boot)) = []
  | inl key =>
      if decide (key = "") then
        fst (main os flags boot) = Exit 2
        ∧ logged (snd (main os flags boot))
          = [(Stderr, "[ERROR] Failed to locate API key!" +:+ nl)]
      else
        ∃ port,
          logged (snd (main os flags boot))
            = [(Stdout, "[INFO] Starting server on port " +:+ port +:+ nl)]
          ∧ fst (main os flags boot)
            = match listen_error os (":" +:+ port) with
              | Some err => Panic err
              | None => Serving (":" +:+ port)
              end
  end.
Proof.
  intros Hd. pose proof (main_logged_quiet os flags Hd) as Hl.
  destruct (main_run os flags) as (w' & Hm & _).
  destruct (amended_apiKey os flags) as [key|err]; [|exact Hl].
  destruct (decide (key = "")).
  - split; [by rewrite Hm|exact Hl].
  - exists (actual_port os flags). split.
    + rewrite Hl. unfold log_line. simpl. by rewrite append_assoc.
    + by rewrite Hm.
Qed.

Lemma X11_witness :
  debugFlag no_flags = false
  ∧ ∃ port,
      logged (snd (main file_only no_flags boot))
        = [(Stdout, "[INFO] Starting server on port " +:+ port +:+ nl)]
      ∧ fst (main file_only no_flags boot)
        = match listen_error file_only (":" +:+ port) with
          | Some err => Panic err
          | None => Serving (":" +:+ port)
          end.
Proof.
  split; [reflexivity|].
  exact (X11_main_log_and_listener file_only no_flags eq_refl).
Defined.
